(** * BioMech Analyzer: overlay window, clip playback and archive handlers

    A shallow embedding of the application logic of the video annotation
    tool: the data model of [types.ts], the overlay painting and the marker
    rendering of [VideoPlayer.tsx], and the handlers of [App.tsx] (capture
    of an annotation with its companion clip, clip playback with its
    one-shot timer, clip deletion, archive export and import).

    Conventions of the embedding.
    - A JavaScript [number] is an exact rational ([Q]).  Every constant the
      handlers use (0.5, 2, 1.0, 1000) and every time or coordinate used
      below in a concrete example is a dyadic rational, on which the sums,
      differences and comparisons of the source are exact.
    - React state is a record; a handler is a function on the record, and
      it reads the values its closure captured, that is those of the state
      it starts from.  The [useRef] cell and the browser's timer table are
      updated in place, in program order.
    - What belongs to the host and not to the repository (JSON, JSZip, the
      ISO formatting of dates) is an interface, [HostLib], over which every
      handler that uses it is parametric. *)

From Stdlib Require Import QArith Qabs Qminmax Qround ZArith Lia Lqa.
From Stdlib.Strings Require Import Byte.
From Stdlib Require Import Ascii DecimalString DecimalN DecimalZ.
From stdpp Require Import gmap strings list.

Local Open Scope Q_scope.

(** ** Numbers *)

Abbreviation number := Q (only parsing).

(** [a < b] and [a > b] as the boolean tests of the source. *)
Definition num_lt (a b : number) : bool := negb (Qle_bool b a).
Definition num_gt (a b : number) : bool := negb (Qle_bool a b).

Definition Math_abs (a : number) : number := Qabs a.
Definition Math_min (a b : number) : number := Qmin a b.

(** [x.toFixed(2)]: the sign is split off, then the integer [n] for which
    [n / 100] is closest to the magnitude is taken, the larger one on a
    tie.  The decimal string is represented by the signed count of
    hundredths it denotes. *)
Definition toFixed2 (x : number) : Z :=
  let n := Qfloor (Qabs x * 100 + (1 # 2)) in
  if num_lt x 0 then (- n)%Z else n.

(** [parseFloat] of a string produced by [toFixed(2)]. *)
Definition parseFloat (hundredths : Z) : number := hundredths # 100.

#[global] Instance Qlt_decision : RelDecision Qlt :=
  λ a b, match Qlt_le_dec a b with
         | left H => left H
         | right H => right (Qle_not_lt _ _ H)
         end.
#[global] Instance Qle_decision : RelDecision Qle :=
  λ a b, match Qlt_le_dec b a with
         | left H => right (Qlt_not_le _ _ H)
         | right H => left H
         end.

(** Linear arithmetic over the rationals, with the terms that [lra] does
    not read taken as unknowns. *)
Ltac num_atoms :=
  repeat match goal with
         | H : context [parseFloat ?k] |- _ =>
             let p := fresh "p" in set (p := parseFloat k) in *; clearbody p
         | |- context [parseFloat ?k] =>
             let p := fresh "p" in set (p := parseFloat k) in *; clearbody p
         | H : context [inject_Z ?k] |- _ =>
             let m := fresh "m" in set (m := inject_Z k) in *; clearbody m
         | |- context [inject_Z ?k] =>
             let m := fresh "m" in set (m := inject_Z k) in *; clearbody m
         | H : context [Qabs ?k] |- _ =>
             let a := fresh "a" in set (a := Qabs k) in *; clearbody a
         end.
Ltac num_lra := num_atoms; lra.

(** ** Truthiness *)

(** [!!s] for [s : string | null]. *)
Definition truthy_str (s : option string) : bool :=
  match s with
  | None => false
  | Some s => negb (String.eqb s "")
  end.

(** [!!n] for a timer handle [n : number | null]. *)
Definition truthy_handle (n : option nat) : bool :=
  match n with
  | None => false
  | Some n => negb (Nat.eqb n 0)
  end.

(** [a || b] on strings. *)
Definition or_default (s : option string) (d : string) : string :=
  match s with
  | Some s => if String.eqb s "" then d else s
  | None => d
  end.

(** ** The data model ([types.ts]) *)

Module Point.
Record t : Type := mk { x : number; y : number; isStart : option bool }.
End Point.

Module Drawing.
Record t : Type := mk {
  id : string;
  time : number;
  color : string;
  size : number;
  path : list Point.t
}.
End Drawing.

Module Annotation.
Record t : Type := mk {
  id : string;
  x : number;
  y : number;
  time : number;
  text : string;
  color : string
}.
End Annotation.

Module Clip.
Record t : Type := mk {
  id : string;
  name : string;
  startTime : number;
  endTime : number;
  duration : number;
  speed : number;
  x : number;
  y : number
}.
End Clip.

Module AnalysisData.
Record t : Type := mk {
  notes : string;
  drawings : list Drawing.t;
  annotations : list Annotation.t;
  clips : list Clip.t;
  primaryVideoFileName : option string
}.
End AnalysisData.

Inductive ToolMode : Type := point | pen.

(** A [File] (or [Blob]): a name and the bytes.  The MIME type, which no
    handler reads, is left out. *)
Module File.
Record t : Type := mk { name : string; bytes : list byte }.
End File.

(** [URL.createObjectURL(file)]: an opaque URL that designates the file. *)
Inductive ObjectURL : Type := BlobURL (f : File.t).
Definition createObjectURL (f : File.t) : ObjectURL := BlobURL f.

(** ** The 2D drawing context

    The part of [CanvasRenderingContext2D] that [renderCanvas] drives: the
    stroke style, the current path with its pen position, and what has
    been painted so far. *)

Module Canvas.

Definition pt : Type := (number * number)%type.

Record Stroke : Type := mkStroke {
  style : string;
  width : number;
  from : pt;
  to : pt
}.

Record Ctx : Type := mkCtx {
  strokeStyle : string;
  lineWidth : number;
  lineCap : string;
  lineJoin : string;
  subpath : list (pt * pt);
  penAt : option pt;
  painted : list Stroke
}.

Definition set_strokeStyle (v : string) (c : Ctx) : Ctx :=
  mkCtx v (lineWidth c) (lineCap c) (lineJoin c) (subpath c) (penAt c) (painted c).
Definition set_lineWidth (v : number) (c : Ctx) : Ctx :=
  mkCtx (strokeStyle c) v (lineCap c) (lineJoin c) (subpath c) (penAt c) (painted c).
Definition set_lineCap (v : string) (c : Ctx) : Ctx :=
  mkCtx (strokeStyle c) (lineWidth c) v (lineJoin c) (subpath c) (penAt c) (painted c).
Definition set_lineJoin (v : string) (c : Ctx) : Ctx :=
  mkCtx (strokeStyle c) (lineWidth c) (lineCap c) v (subpath c) (penAt c) (painted c).

(** [clearRect(0, 0, width, height)]: the whole surface is erased. *)
Definition clearRect (c : Ctx) : Ctx :=
  mkCtx (strokeStyle c) (lineWidth c) (lineCap c) (lineJoin c) (subpath c) (penAt c) [].

Definition beginPath (c : Ctx) : Ctx :=
  mkCtx (strokeStyle c) (lineWidth c) (lineCap c) (lineJoin c) [] None (painted c).

Definition moveTo (p : pt) (c : Ctx) : Ctx :=
  mkCtx (strokeStyle c) (lineWidth c) (lineCap c) (lineJoin c) (subpath c) (Some p) (painted c).

(** With no current point, [lineTo] only places the pen. *)
Definition lineTo (p : pt) (c : Ctx) : Ctx :=
  match penAt c with
  | None => moveTo p c
  | Some q =>
      mkCtx (strokeStyle c) (lineWidth c) (lineCap c) (lineJoin c)
            (subpath c ++ [(q, p)]) (Some p) (painted c)
  end.

(** A segment stroked with the brush of the context. *)
Definition strokeWith (c : Ctx) (s : pt * pt) : Stroke :=
  mkStroke (strokeStyle c) (lineWidth c) s.1 s.2.

Definition stroke (c : Ctx) : Ctx :=
  mkCtx (strokeStyle c) (lineWidth c) (lineCap c) (lineJoin c) (subpath c) (penAt c)
      (painted c ++ map (strokeWith c) (subpath c)).

End Canvas.

(** ** The elements the player holds references to *)

Record DOMRect : Type := mkRect {
  rect_left : number; rect_top : number; rect_width : number; rect_height : number
}.

Record CanvasEl : Type := mkCanvas {
  canvas_width : number;
  canvas_height : number;
  getBoundingClientRect : DOMRect;
  getContext2d : option Canvas.Ctx
}.

Record VideoEl : Type := mkVideo {
  video_currentTime : number;
  video_duration : number;
  video_paused : bool;
  video_ended : bool;
  video_playbackRate : number
}.

(** ** [VideoPlayer.tsx]: the overlay *)

Module VideoPlayer.

Definition tolerance : number := 1 # 2.

Definition isStart_set (p : Point.t) : bool :=
  match Point.isStart p with Some b => b | None => false end.

(** The body of [drawing.path.forEach] in [renderCanvas]; the state of
    the loop is the context and the local [first]. *)
Definition pathStep (canvas : CanvasEl) (acc : Canvas.Ctx * bool) (p : Point.t)
  : Canvas.Ctx * bool :=
  let '(ctx, first) := acc in
  let dx := Point.x p * canvas_width canvas in
  let dy := Point.y p * canvas_height canvas in
  if first || isStart_set p then
    (Canvas.moveTo (dx, dy) ctx, false)
  else
    (Canvas.moveTo (dx, dy)
       (Canvas.beginPath (Canvas.stroke (Canvas.lineTo (dx, dy) ctx))), first).

(** The body of [currentPath.current.forEach]: only [first] restarts. *)
Definition currentPathStep (canvas : CanvasEl) (acc : Canvas.Ctx * bool) (p : Point.t)
  : Canvas.Ctx * bool :=
  let '(ctx, first) := acc in
  let dx := Point.x p * canvas_width canvas in
  let dy := Point.y p * canvas_height canvas in
  if first then
    (Canvas.moveTo (dx, dy) ctx, false)
  else
    (Canvas.moveTo (dx, dy)
       (Canvas.beginPath (Canvas.stroke (Canvas.lineTo (dx, dy) ctx))), first).

Definition setupStroke (color : string) (size : number) (ctx : Canvas.Ctx) : Canvas.Ctx :=
  Canvas.beginPath
    (Canvas.set_lineJoin "round"
       (Canvas.set_lineCap "round"
          (Canvas.set_lineWidth size (Canvas.set_strokeStyle color ctx)))).

(** The body of [drawings.forEach]. *)
Definition drawSaved (canvas : CanvasEl) (currentTime : number)
    (ctx : Canvas.Ctx) (drawing : Drawing.t) : Canvas.Ctx :=
  if num_lt (Math_abs (Drawing.time drawing - currentTime)) tolerance then
    (fold_left (pathStep canvas) (Drawing.path drawing)
       (setupStroke (Drawing.color drawing) (Drawing.size drawing) ctx, true)).1
  else ctx.

Definition drawCurrent (canvas : CanvasEl) (brushColor : string) (brushSize : number)
    (isDrawing : bool) (currentPath : list Point.t) (ctx : Canvas.Ctx) : Canvas.Ctx :=
  if isDrawing && Nat.ltb 0 (length currentPath) then
    (fold_left (currentPathStep canvas) currentPath
       (setupStroke brushColor brushSize ctx, true)).1
  else ctx.

(** [renderCanvas]: repaint the overlay.  The result is the canvas
    element after the call. *)
Definition renderCanvas (drawings : list Drawing.t) (brushColor : string)
    (brushSize : number) (isDrawing : bool) (currentPath : list Point.t)
    (canvasRef : option CanvasEl) (videoRef : option VideoEl) : option CanvasEl :=
  match canvasRef, videoRef with
  | Some canvas, Some video =>
      match getContext2d canvas with
      | None => canvasRef
      | Some ctx =>
          let ctx := Canvas.clearRect ctx in
          let currentTime := video_currentTime video in
          let ctx := fold_left (drawSaved canvas currentTime) drawings ctx in
          let ctx := drawCurrent canvas brushColor brushSize isDrawing currentPath ctx in
          Some (mkCanvas (canvas_width canvas) (canvas_height canvas)
                         (getBoundingClientRect canvas) (Some ctx))
      end
  | _, _ => canvasRef
  end.

(** What is on the overlay after [renderCanvas]. *)
Definition overlay (canvasRef : option CanvasEl) : list Canvas.Stroke :=
  match canvasRef with
  | Some canvas =>
      match getContext2d canvas with
      | Some ctx => Canvas.painted ctx
      | None => []
      end
  | None => []
  end.

(** The annotation markers of the render:
    [videoRef.current && annotations.map(ann => ...)]. *)
Record Marker : Type := mkMarker {
  key : string;
  left_percent : number;
  top_percent : number;
  backgroundColor : string;
  label : string
}.

Definition markerOf (ann : Annotation.t) : Marker :=
  mkMarker (Annotation.id ann) (Annotation.x ann * 100) (Annotation.y ann * 100)
           (Annotation.color ann) (Annotation.text ann).

Definition annotationMarker (video : VideoEl) (ann : Annotation.t) : option Marker :=
  let timeDiff := Math_abs (Annotation.time ann - video_currentTime video) in
  if num_gt timeDiff (1 # 2) then None else Some (markerOf ann).

Definition renderMarkers (videoRef : option VideoEl) (annotations : list Annotation.t)
  : list (option Marker) :=
  match videoRef with
  | None => []
  | Some video => map (annotationMarker video) annotations
  end.

(** The zoom of the video surface: [scale(2.0)] about the clip's focus
  (in percent of the frame) while a clip is active, the identity about
  the centre otherwise. *)
Record Transform : Type := mkTransform {
  scale : number;
  transformOrigin : option (number * number)
}.

Definition transformStyle (activeClip : option Clip.t) : Transform :=
  match activeClip with
  | Some clip => mkTransform 2 (Some (Clip.x clip * 100, Clip.y clip * 100))
  | None => mkTransform 1 None
  end.

(** *** The rendering rule in the words of the specification

    A drawing is shown when its anchor time is within the tolerance of
    the playback time; its path is walked point by point, each point
    being joined to the previous one unless it is flagged [isStart]. *)
Definition scaled (canvas : CanvasEl) (p : Point.t) : Canvas.pt :=
  (Point.x p * canvas_width canvas, Point.y p * canvas_height canvas).

Fixpoint spec_segments (canvas : CanvasEl) (prev : Point.t) (rest : list Point.t)
  : list (Canvas.pt * Canvas.pt) :=
  match rest with
  | [] => []
  | p :: rest' =>
      (if isStart_set p then [] else [(scaled canvas prev, scaled canvas p)])
        ++ spec_segments canvas p rest'
  end.

Definition spec_path (canvas : CanvasEl) (path : list Point.t)
  : list (Canvas.pt * Canvas.pt) :=
  match path with
  | [] => []
  | p :: rest => spec_segments canvas p rest
  end.

Definition spec_strokes (canvas : CanvasEl) (d : Drawing.t) : list Canvas.Stroke :=
  map (λ s, Canvas.mkStroke (Drawing.color d) (Drawing.size d) s.1 s.2)
      (spec_path canvas (Drawing.path d)).

Definition spec_overlay (canvas : CanvasEl) (t : number) (drawings : list Drawing.t)
  : list Canvas.Stroke :=
  flat_map (spec_strokes canvas)
         (filter (λ d, Qabs (Drawing.time d - t) < 1 # 2) drawings).

(** The stroke in progress joins every point to the previous one. *)
Definition unflag (p : Point.t) : Point.t := Point.mk (Point.x p) (Point.y p) None.

Definition spec_current (canvas : CanvasEl) (brushColor : string) (brushSize : number)
    (isDrawing : bool) (currentPath : list Point.t) : list Canvas.Stroke :=
  if isDrawing then
    map (λ s, Canvas.mkStroke brushColor brushSize s.1 s.2)
        (spec_path canvas (map unflag currentPath))
  else [].

End VideoPlayer.

(** ** The host library

    [JSON], [JSZip] and [Date.prototype.toISOString] are not code of the
    repository.  [JSON_parse] returns [None] where [JSON.parse] throws, and
    [JSZip_loadAsync] returns [None] where the promise rejects; a loaded
    archive is the finite map from entry names to the bytes of the entries
    (an entry read with [async("string")] is decoded as UTF-8, and a
    [string] here is the sequence of UTF-8 bytes). *)

Class HostLib : Type := {
  JSON_stringify : AnalysisData.t → string;
  JSON_parse : string → option AnalysisData.t;
  JSZip_generateAsync : gmap string (list byte) → list byte;
  JSZip_loadAsync : list byte → option (gmap string (list byte));
  Date_toISOString : N → string
}.

(** ** [App.tsx]: the state *)

Record App : Type := mkApp {
  videoSrc : option ObjectURL;
  videoFileName : option string;
  videoFile : option File.t;
  isPlaying : bool;
  currentTime : number;
  duration : number;
  playbackRate : number;
  toolMode : ToolMode;
  brushColor : string;
  brushSize : number;
  notes : string;
  drawings : list Drawing.t;
  annotations : list Annotation.t;
  clips : list Clip.t;
  activeClipId : option string;
  clipTimeoutRef : option nat;
  seekTimestamp : option number
}.

Definition with_videoSrc (v : option ObjectURL) (s : App) : App :=
  mkApp v (videoFileName s) (videoFile s) (isPlaying s) (currentTime s) (duration s) (playbackRate s) (toolMode s) (brushColor s) (brushSize s) (notes s) (drawings s) (annotations s) (clips s) (activeClipId s) (clipTimeoutRef s) (seekTimestamp s).
Definition with_videoFileName (v : option string) (s : App) : App :=
  mkApp (videoSrc s) v (videoFile s) (isPlaying s) (currentTime s) (duration s) (playbackRate s) (toolMode s) (brushColor s) (brushSize s) (notes s) (drawings s) (annotations s) (clips s) (activeClipId s) (clipTimeoutRef s) (seekTimestamp s).
Definition with_videoFile (v : option File.t) (s : App) : App :=
  mkApp (videoSrc s) (videoFileName s) v (isPlaying s) (currentTime s) (duration s) (playbackRate s) (toolMode s) (brushColor s) (brushSize s) (notes s) (drawings s) (annotations s) (clips s) (activeClipId s) (clipTimeoutRef s) (seekTimestamp s).
Definition with_isPlaying (v : bool) (s : App) : App :=
  mkApp (videoSrc s) (videoFileName s) (videoFile s) v (currentTime s) (duration s) (playbackRate s) (toolMode s) (brushColor s) (brushSize s) (notes s) (drawings s) (annotations s) (clips s) (activeClipId s) (clipTimeoutRef s) (seekTimestamp s).
Definition with_currentTime (v : number) (s : App) : App :=
  mkApp (videoSrc s) (videoFileName s) (videoFile s) (isPlaying s) v (duration s) (playbackRate s) (toolMode s) (brushColor s) (brushSize s) (notes s) (drawings s) (annotations s) (clips s) (activeClipId s) (clipTimeoutRef s) (seekTimestamp s).
Definition with_duration (v : number) (s : App) : App :=
  mkApp (videoSrc s) (videoFileName s) (videoFile s) (isPlaying s) (currentTime s) v (playbackRate s) (toolMode s) (brushColor s) (brushSize s) (notes s) (drawings s) (annotations s) (clips s) (activeClipId s) (clipTimeoutRef s) (seekTimestamp s).
Definition with_playbackRate (v : number) (s : App) : App :=
  mkApp (videoSrc s) (videoFileName s) (videoFile s) (isPlaying s) (currentTime s) (duration s) v (toolMode s) (brushColor s) (brushSize s) (notes s) (drawings s) (annotations s) (clips s) (activeClipId s) (clipTimeoutRef s) (seekTimestamp s).
Definition with_toolMode (v : ToolMode) (s : App) : App :=
  mkApp (videoSrc s) (videoFileName s) (videoFile s) (isPlaying s) (currentTime s) (duration s) (playbackRate s) v (brushColor s) (brushSize s) (notes s) (drawings s) (annotations s) (clips s) (activeClipId s) (clipTimeoutRef s) (seekTimestamp s).
Definition with_brushColor (v : string) (s : App) : App :=
  mkApp (videoSrc s) (videoFileName s) (videoFile s) (isPlaying s) (currentTime s) (duration s) (playbackRate s) (toolMode s) v (brushSize s) (notes s) (drawings s) (annotations s) (clips s) (activeClipId s) (clipTimeoutRef s) (seekTimestamp s).
Definition with_brushSize (v : number) (s : App) : App :=
  mkApp (videoSrc s) (videoFileName s) (videoFile s) (isPlaying s) (currentTime s) (duration s) (playbackRate s) (toolMode s) (brushColor s) v (notes s) (drawings s) (annotations s) (clips s) (activeClipId s) (clipTimeoutRef s) (seekTimestamp s).
Definition with_notes (v : string) (s : App) : App :=
  mkApp (videoSrc s) (videoFileName s) (videoFile s) (isPlaying s) (currentTime s) (duration s) (playbackRate s) (toolMode s) (brushColor s) (brushSize s) v (drawings s) (annotations s) (clips s) (activeClipId s) (clipTimeoutRef s) (seekTimestamp s).
Definition with_drawings (v : list Drawing.t) (s : App) : App :=
  mkApp (videoSrc s) (videoFileName s) (videoFile s) (isPlaying s) (currentTime s) (duration s) (playbackRate s) (toolMode s) (brushColor s) (brushSize s) (notes s) v (annotations s) (clips s) (activeClipId s) (clipTimeoutRef s) (seekTimestamp s).
Definition with_annotations (v : list Annotation.t) (s : App) : App :=
  mkApp (videoSrc s) (videoFileName s) (videoFile s) (isPlaying s) (currentTime s) (duration s) (playbackRate s) (toolMode s) (brushColor s) (brushSize s) (notes s) (drawings s) v (clips s) (activeClipId s) (clipTimeoutRef s) (seekTimestamp s).
Definition with_clips (v : list Clip.t) (s : App) : App :=
  mkApp (videoSrc s) (videoFileName s) (videoFile s) (isPlaying s) (currentTime s) (duration s) (playbackRate s) (toolMode s) (brushColor s) (brushSize s) (notes s) (drawings s) (annotations s) v (activeClipId s) (clipTimeoutRef s) (seekTimestamp s).
Definition with_activeClipId (v : option string) (s : App) : App :=
  mkApp (videoSrc s) (videoFileName s) (videoFile s) (isPlaying s) (currentTime s) (duration s) (playbackRate s) (toolMode s) (brushColor s) (brushSize s) (notes s) (drawings s) (annotations s) (clips s) v (clipTimeoutRef s) (seekTimestamp s).
Definition with_clipTimeoutRef (v : option nat) (s : App) : App :=
  mkApp (videoSrc s) (videoFileName s) (videoFile s) (isPlaying s) (currentTime s) (duration s) (playbackRate s) (toolMode s) (brushColor s) (brushSize s) (notes s) (drawings s) (annotations s) (clips s) (activeClipId s) v (seekTimestamp s).
Definition with_seekTimestamp (v : option number) (s : App) : App :=
  mkApp (videoSrc s) (videoFileName s) (videoFile s) (isPlaying s) (currentTime s) (duration s) (playbackRate s) (toolMode s) (brushColor s) (brushSize s) (notes s) (drawings s) (annotations s) (clips s) (activeClipId s) (clipTimeoutRef s) v.

(** The browser as far as the handlers act on it: the pending one-shot
    timers whose callback is [stopClip] (handle to delay in milliseconds),
    the next timer handle of the page (handles are positive and handed out
    in increasing order), the [alert] boxes shown and the [console.error]
    lines so far, the clock, and the files handed to [saveAs]. *)
Record Host : Type := mkHost {
  timers : gmap nat number;
  nextTimer : nat;
  alerts : list string;
  consoleErrors : list string;
  Date_now : N;
  downloads : list File.t
}.

Definition with_timers (v : gmap nat number) (h : Host) : Host :=
  mkHost v (nextTimer h) (alerts h) (consoleErrors h) (Date_now h) (downloads h).
Definition with_nextTimer (v : nat) (h : Host) : Host :=
  mkHost (timers h) v (alerts h) (consoleErrors h) (Date_now h) (downloads h).
Definition with_alerts (v : list string) (h : Host) : Host :=
  mkHost (timers h) (nextTimer h) v (consoleErrors h) (Date_now h) (downloads h).
Definition with_consoleErrors (v : list string) (h : Host) : Host :=
  mkHost (timers h) (nextTimer h) (alerts h) v (Date_now h) (downloads h).
Definition with_Date_now (v : N) (h : Host) : Host :=
  mkHost (timers h) (nextTimer h) (alerts h) (consoleErrors h) v (downloads h).
Definition with_downloads (v : list File.t) (h : Host) : Host :=
  mkHost (timers h) (nextTimer h) (alerts h) (consoleErrors h) (Date_now h) v.

(** The mounted [VideoPlayer]: its two element references, its [isDrawing]
    state and its [currentPath] reference. *)
Record Player : Type := mkPlayer {
  videoRef : option VideoEl;
  canvasRef : option CanvasEl;
  isDrawing : bool;
  currentPath : list Point.t
}.

Record World : Type := mkWorld { app : App; player : Player; host : Host }.

Definition Cmd : Type := World → World.

Definition seq (c1 c2 : Cmd) : Cmd := λ w, c2 (c1 w).
Notation "c1 ;; c2" := (seq c1 c2) (at level 100, right associativity).

Definition skip : Cmd := λ w, w.
Definition upd_app (f : App → App) : Cmd := λ w, mkWorld (f (app w)) (player w) (host w).
Definition upd_player (f : Player → Player) : Cmd := λ w, mkWorld (app w) (f (player w)) (host w).
Definition upd_host (f : Host → Host) : Cmd := λ w, mkWorld (app w) (player w) (f (host w)).

(** The state setters of [useState]. *)
Definition setVideoSrc (v : option ObjectURL) : Cmd := upd_app (with_videoSrc v).
Definition setVideoFileName (v : option string) : Cmd := upd_app (with_videoFileName v).
Definition setVideoFile (v : option File.t) : Cmd := upd_app (with_videoFile v).
Definition setIsPlaying (v : bool) : Cmd := upd_app (with_isPlaying v).
Definition setCurrentTime (v : number) : Cmd := upd_app (with_currentTime v).
Definition setDuration (v : number) : Cmd := upd_app (with_duration v).
Definition setPlaybackRate (v : number) : Cmd := upd_app (with_playbackRate v).
Definition setToolMode (v : ToolMode) : Cmd := upd_app (with_toolMode v).
Definition setBrushColor (v : string) : Cmd := upd_app (with_brushColor v).
Definition setBrushSize (v : number) : Cmd := upd_app (with_brushSize v).
Definition setNotes (v : string) : Cmd := upd_app (with_notes v).
Definition setDrawings (f : list Drawing.t → list Drawing.t) : Cmd :=
  upd_app (λ s, with_drawings (f (drawings s)) s).
Definition setAnnotations (f : list Annotation.t → list Annotation.t) : Cmd :=
  upd_app (λ s, with_annotations (f (annotations s)) s).
Definition setClips (f : list Clip.t → list Clip.t) : Cmd :=
  upd_app (λ s, with_clips (f (clips s)) s).
Definition setActiveClipId (v : option string) : Cmd := upd_app (with_activeClipId v).
Definition setSeekTimestamp (v : option number) : Cmd := upd_app (with_seekTimestamp v).

(** Host calls. *)
Definition alert (msg : string) : Cmd := upd_host (λ h, with_alerts (alerts h ++ [msg]) h).
Definition console_error (msg : string) : Cmd :=
  upd_host (λ h, with_consoleErrors (consoleErrors h ++ [msg]) h).
Definition clearTimeout (handle : nat) : Cmd :=
  upd_host (λ h, with_timers (delete handle (timers h)) h).
Definition saveAs (content : list byte) (filename : string) : Cmd :=
  upd_host (λ h, with_downloads (downloads h ++ [File.mk filename content]) h).

(** [clipTimeoutRef.current = window.setTimeout(() => stopClip(), ms)]. *)
Definition armClipTimeout (ms : number) : Cmd := λ w,
  let handle := nextTimer (host w) in
  mkWorld (with_clipTimeoutRef (Some handle) (app w)) (player w)
          (with_nextTimer (S handle) (with_timers (<[handle := ms]> (timers (host w))) (host w))).

(** [Date.now().toString()]. *)
Definition Date_now_toString (w : World) : string :=
  NilZero.string_of_uint (N.to_uint (Date_now (host w))).

(** ** [App.tsx]: the handlers *)

Definition loadVideoFile (file : File.t) : Cmd :=
  let url := createObjectURL file in
  setVideoSrc (Some url) ;;
  setVideoFileName (Some (File.name file)) ;;
  setVideoFile (Some file) ;;
  setDrawings (λ _, []) ;;
  setAnnotations (λ _, []) ;;
  setClips (λ _, []) ;;
  setNotes "".

Definition handleVideoUpload (file : option File.t) : Cmd :=
  match file with
  | Some file => loadVideoFile file
  | None => skip
  end.

Definition analysis_entry : string := "analysis_data.json".
Definition default_video_name : string := "video.mp4".

(** The [catch] block of [handleZipUpload]. *)
Definition loadFailed (err : string) : Cmd :=
  console_error err ;; alert "Failed to load analysis file.".

Definition handleZipUpload `{HostLib} (file : option File.t) : Cmd :=
  match file with
  | None => skip
  | Some file =>
      match JSZip_loadAsync (File.bytes file) with
      | None => loadFailed "JSZip.loadAsync"
      | Some zip =>
          match zip !! analysis_entry with
          | None => skip
          | Some jsonFile =>
              let jsonContent := String.string_of_list_byte jsonFile in
              match JSON_parse jsonContent with
              | None => loadFailed "JSON.parse"
              | Some data =>
                  setNotes (AnalysisData.notes data) ;;
                  setDrawings (λ _, AnalysisData.drawings data) ;;
                  setAnnotations (λ _, AnalysisData.annotations data) ;;
                  setClips (λ _, AnalysisData.clips data) ;;
                  if truthy_str (AnalysisData.primaryVideoFileName data) then
                    let name := default "" (AnalysisData.primaryVideoFileName data) in
                    match zip !! name with
                    | Some videoBlob => loadVideoFile (File.mk name videoBlob)
                    | None =>
                        alert "Analysis loaded, but the video file was missing in the archive."
                    end
                  else skip
              end
          end
      end
  end.

(** [s.replace(/[:.]/g, '-')]. *)
Fixpoint replace_colon_dot (s : string) : string :=
  match s with
  | EmptyString => EmptyString
  | String c rest =>
      String (if Ascii.eqb c ":" || Ascii.eqb c "." then "-"%char else c)
             (replace_colon_dot rest)
  end.

(** The snapshot [saveAnalysis] serializes. *)
Definition snapshot (s : App) : AnalysisData.t :=
  AnalysisData.mk (notes s) (drawings s) (annotations s) (clips s)
                  (Some (or_default (videoFileName s) default_video_name)).

(** The two entries [saveAnalysis] puts in the archive, in program order:
    the second [zip.file] replaces the first when the names coincide. *)
Definition archiveEntries `{HostLib} (s : App) (videoFile : File.t)
  : gmap string (list byte) :=
  let zip : gmap string (list byte) := ∅ in
  let data := snapshot s in
  let zip := <[analysis_entry := String.list_byte_of_string (JSON_stringify data)]> zip in
  <[or_default (videoFileName s) default_video_name := File.bytes videoFile]> zip.

Definition saveAnalysis `{HostLib} : Cmd := λ w,
  match videoFile (app w) with
  | None => w
  | Some videoFile =>
      let zip := archiveEntries (app w) videoFile in
      let content := JSZip_generateAsync zip in
      let timestamp := replace_colon_dot (Date_toISOString (Date_now (host w))) in
      saveAs content ("Analysis_" +:+ timestamp +:+ ".zip") w
  end.

(** [prompt(...)] returns the operator's [answer]: [None] when the box is
    dismissed, the text otherwise. *)
Definition handleAddAnnotation (answer : option string) (x y time : number) : Cmd := λ w,
  let text := answer in
  if negb (truthy_str text) then w
  else
    let text := default "" text in
    let id := Date_now_toString w in
    let brushColor := brushColor (app w) in
    let duration := duration (app w) in
    let clipStart := time in
    let clipEnd := Math_min (time + 2) duration in
    (setAnnotations (λ prev, prev ++ [Annotation.mk id x y time text brushColor]) ;;
     setClips (λ prev, prev ++
       [Clip.mk id text clipStart clipEnd
                (parseFloat (toFixed2 (clipEnd - clipStart))) (1 # 2) x y])) w.

(** *** Clip playback *)

Definition cancelClipTimeout : Cmd := λ w,
  if truthy_handle (clipTimeoutRef (app w))
  then clearTimeout (default 0%nat (clipTimeoutRef (app w))) w
  else w.

Definition stopClip : Cmd :=
  cancelClipTimeout ;;
  setActiveClipId None ;;
  setIsPlaying false ;;
  setPlaybackRate 1.

Definition durationMs (clip : Clip.t) : number :=
  ((Clip.endTime clip - Clip.startTime clip) / Clip.speed clip) * 1000.

Definition playClip (clip : Clip.t) : Cmd :=
  cancelClipTimeout ;;
  setActiveClipId (Some (Clip.id clip)) ;;
  setPlaybackRate (Clip.speed clip) ;;
  setSeekTimestamp (Some (Clip.startTime clip)) ;;
  setIsPlaying true ;;
  armClipTimeout (durationMs clip).

(** *** The callbacks passed to [Sidebar] and [VideoPlayer] *)

Definition onDeleteClip (id : string) : Cmd := λ w,
  ((if bool_decide (activeClipId (app w) = Some id) then stopClip else skip) ;;
   setClips (λ prev, filter (λ c, Clip.id c ≠ id) prev)) w.

Definition onDeleteAnnotation (id : string) : Cmd :=
  setAnnotations (λ prev, filter (λ a, Annotation.id a ≠ id) prev).

Definition onAddDrawing (d : Drawing.t) : Cmd := setDrawings (λ prev, prev ++ [d]).

Definition onClearAll (confirmed : bool) : Cmd :=
  if confirmed then
    setDrawings (λ _, []) ;; setAnnotations (λ _, []) ;; setClips (λ _, [])
  else skip.

Definition onVideoTimeUpdate (curr dur : number) : Cmd :=
  setCurrentTime curr ;; setDuration dur.

Definition onSeekComplete : Cmd := setSeekTimestamp None.

(** [clips.find(c => c.id === activeClipId) || null]. *)
Definition activeClip (s : App) : option Clip.t :=
  match activeClipId s with
  | None => None
  | Some a => List.find (λ c, String.eqb (Clip.id c) a) (clips s)
  end.

(** ** [VideoPlayer.tsx]: pointer capture *)

Record PointerEvent : Type := mkPointer { clientX : number; clientY : number }.

Definition getNormalizedPos (canvasRef : option CanvasEl) (e : PointerEvent)
  : number * number :=
  match canvasRef with
  | None => (0, 0)
  | Some canvas =>
      let rect := getBoundingClientRect canvas in
      ((clientX e - rect_left rect) / rect_width rect,
       (clientY e - rect_top rect) / rect_height rect)
  end.

Definition setIsDrawing (v : bool) : Cmd :=
  upd_player (λ p, mkPlayer (videoRef p) (canvasRef p) v (currentPath p)).
Definition setCurrentPath (f : list Point.t → list Point.t) : Cmd :=
  upd_player (λ p, mkPlayer (videoRef p) (canvasRef p) (isDrawing p) (f (currentPath p))).

(** [renderCanvas()] on the mounted player. *)
Definition repaint : Cmd := λ w,
  upd_player (λ p,
    mkPlayer (videoRef p)
             (VideoPlayer.renderCanvas (drawings (app w)) (brushColor (app w))
                (brushSize (app w)) (isDrawing p) (currentPath p) (canvasRef p) (videoRef p))
             (isDrawing p) (currentPath p)) w.

Definition is_pen (m : ToolMode) : bool := match m with pen => true | point => false end.

Definition handleStart (answer : option string) (e : PointerEvent) : Cmd := λ w,
  match activeClip (app w) with
  | Some _ => w
  | None =>
      match videoRef (player w) with
      | None => w
      | Some video =>
          let pos := getNormalizedPos (canvasRef (player w)) e in
          match toolMode (app w) with
          | point => handleAddAnnotation answer pos.1 pos.2 (video_currentTime video) w
          | pen =>
              (setIsDrawing true ;;
               setCurrentPath (λ _, [Point.mk pos.1 pos.2 (Some true)])) w
          end
      end
  end.

Definition handleMove (e : PointerEvent) : Cmd := λ w,
  if negb (isDrawing (player w)) || negb (is_pen (toolMode (app w)))
     || bool_decide (is_Some (activeClip (app w)))
  then w
  else
    let pos := getNormalizedPos (canvasRef (player w)) e in
    (setCurrentPath (λ path, path ++ [Point.mk pos.1 pos.2 (Some false)]) ;; repaint) w.

Definition handleEnd : Cmd := λ w,
  if isDrawing (player w) && is_pen (toolMode (app w)) then
    (setIsDrawing false ;;
     (match videoRef (player w) with
      | Some video =>
          if Nat.ltb 1 (length (currentPath (player w))) then
            onAddDrawing (Drawing.mk (Date_now_toString w) (video_currentTime video)
                            (brushColor (app w)) (brushSize (app w))
                            (currentPath (player w)))
          else skip
      | None => skip
      end) ;;
     setCurrentPath (λ _, [])) w
  else w.

Definition handleTimeUpdate : Cmd := λ w,
  match videoRef (player w) with
  | Some video =>
      (onVideoTimeUpdate (video_currentTime video) (video_duration video) ;; repaint) w
  | None => w
  end.

(** The effect that serves a seek request. *)
Definition seekEffect : Cmd := λ w,
  match seekTimestamp (app w), videoRef (player w) with
  | Some t, Some video =>
      (upd_player (λ p,
         mkPlayer (Some (mkVideo t (video_duration video) (video_paused video)
                                 (video_ended video) (video_playbackRate video)))
                  (canvasRef p) (isDrawing p) (currentPath p)) ;;
       onSeekComplete) w
  | _, _ => w
  end.

(** ** The event loop

    One event is one callback run to completion.  The elements change
    under the host's control ([Elements]); any pending [stopClip] timer may
    fire ([TimerFires]); other scripts of the page draw handles from the
    same counter ([ForeignTimer]).  [onReset] reloads the page, which ends
    the run: what follows it is a run from a new [init]. *)

Inductive Event : Type :=
| PointerStart (answer : option string) (e : PointerEvent)
| PointerMove (e : PointerEvent)
| PointerEnd
| VideoTimeUpdate
| VideoEnded
| TogglePlay
| ModeChange (m : ToolMode)
| PickBrushColor (c : string)
| PickBrushSize (n : number)
| ClearAll (confirmed : bool)
| SelectRate (r : number)
| EditNotes (s : string)
| PlayClip (clip : Clip.t)
| StopClip
| DeleteClip (id : string)
| DeleteAnnotation (id : string)
| Save
| VideoUpload (file : option File.t)
| ZipUpload (file : option File.t)
| SeekEffect
| Elements (video : option VideoEl) (canvas : option CanvasEl)
| TimerFires (handle : nat)
| ForeignTimer
| ClockTick (dt : N).

Definition initApp : App :=
  mkApp None None None false 0 0 1 point "#ff0000" 5 "" [] [] [] None None None.

Definition initPlayer : Player := mkPlayer None None false [].

Definition init (now : N) : World :=
  mkWorld initApp initPlayer (mkHost ∅ 1 [] [] now []).

Definition fireTimer (handle : nat) : Cmd := λ w,
  match timers (host w) !! handle with
  | Some _ => (clearTimeout handle ;; stopClip) w
  | None => w
  end.

Definition step `{HostLib} (ev : Event) : Cmd :=
  match ev with
  | PointerStart answer e => handleStart answer e
  | PointerMove e => handleMove e
  | PointerEnd => handleEnd
  | VideoTimeUpdate => handleTimeUpdate
  | VideoEnded => setIsPlaying false
  | TogglePlay => λ w, setIsPlaying (negb (isPlaying (app w))) w
  | ModeChange m => setToolMode m
  | PickBrushColor c => setBrushColor c
  | PickBrushSize n => setBrushSize n
  | ClearAll confirmed => onClearAll confirmed
  | SelectRate r => λ w, if truthy_str (activeClipId (app w)) then w else setPlaybackRate r w
  | EditNotes s => setNotes s
  | PlayClip clip => playClip clip
  | StopClip => stopClip
  | DeleteClip id => onDeleteClip id
  | DeleteAnnotation id => onDeleteAnnotation id
  | Save => saveAnalysis
  | VideoUpload file => handleVideoUpload file
  | ZipUpload file => handleZipUpload file
  | SeekEffect => seekEffect
  | Elements video canvas =>
      upd_player (λ p, mkPlayer video canvas (isDrawing p) (currentPath p))
  | TimerFires handle => fireTimer handle
  | ForeignTimer => upd_host (λ h, with_nextTimer (S (nextTimer h)) h)
  | ClockTick dt => upd_host (λ h, with_Date_now (Date_now h + dt)%N h)
  end.

Definition run `{HostLib} (evs : list Event) (w : World) : World :=
  fold_left (λ w ev, step ev w) evs w.

Definition reachable `{HostLib} (w : World) : Prop :=
  ∃ now evs, w = run evs (init now).

(** ** [Sidebar.tsx] *)

(** [Math.floor] and the remainder [a % n], which has the sign of the
    dividend: the quotient is rounded towards zero. *)
Definition Math_floor (x : number) : Z := Qfloor x.

Definition trunc (x : number) : Z := if num_lt x 0 then Qceiling x else Qfloor x.

Definition js_rem (a n : number) : number := a - n * inject_Z (trunc (a / n)).

(** [z.toString()] for an integer and [s.padStart(2, '0')]. *)
Definition int_toString (z : Z) : string := NilZero.string_of_int (Z.to_int z).

Fixpoint zeros (n : nat) : string :=
  match n with
  | O => EmptyString
  | S n => String "0" (zeros n)
  end.

Definition padStart2 (s : string) : string :=
  zeros (2 - String.length s) +:+ s.

Definition formatTime (seconds : number) : string :=
  let mins := Math_floor (seconds / 60) in
  let secs := Math_floor (js_rem seconds 60) in
  padStart2 (int_toString mins) +:+ ":" +:+ padStart2 (int_toString secs).

(** The play/stop button of a clip row. *)
Definition clipButton (clip : Clip.t) : Cmd := λ w,
  let isPlaying := bool_decide (activeClipId (app w) = Some (Clip.id clip)) in
  if isPlaying then stopClip w else playClip clip w.

(** ** [VideoPlayer.tsx]: the effects on the video element *)

Definition setVideo (f : VideoEl → VideoEl) : Cmd :=
  upd_player (λ p, mkPlayer (f <$> videoRef p) (canvasRef p) (isDrawing p) (currentPath p)).

(** The effect on [externalPlayState].  [accepted] tells whether the
    promise of [play()] resolves; when it rejects the error is logged and
    the element stays paused. *)
Definition playStateEffect (accepted : bool) : Cmd := λ w,
  match videoRef (player w) with
  | None => w
  | Some video =>
      if isPlaying (app w) && video_paused video then
        if accepted then
          setVideo (λ v, mkVideo (video_currentTime v) (video_duration v) false
                                 (video_ended v) (video_playbackRate v)) w
        else console_error "Play error" w
      else if negb (isPlaying (app w)) && negb (video_paused video) then
        setVideo (λ v, mkVideo (video_currentTime v) (video_duration v) true
                               (video_ended v) (video_playbackRate v)) w
      else w
  end.

(** The effect on [playbackRate]. *)
Definition playbackRateEffect : Cmd := λ w,
  setVideo (λ v, mkVideo (video_currentTime v) (video_duration v) (video_paused v)
                         (video_ended v) (playbackRate (app w))) w.

(** A pen gesture: a press, the moves, the release. *)
Definition penGesture (e : PointerEvent) (moves : list PointerEvent) : Cmd := λ w,
  handleEnd (fold_left (λ w e, handleMove e w) moves (handleStart None e w)).

(** The point of a pointer position, as the handlers record it. *)
Definition pointAt (canvasRef : option CanvasEl) (flag : bool) (e : PointerEvent) : Point.t :=
  Point.mk (getNormalizedPos canvasRef e).1 (getNormalizedPos canvasRef e).2 (Some flag).

(** What a pen gesture in progress keeps and what it has accumulated:
    [w'] is [w] with the player drawing [path], the canvas repainted. *)
Definition drawing_from (w : World) (path : list Point.t) (w' : World) : Prop :=
  app w' = app w ∧ host w' = host w
  ∧ videoRef (player w') = videoRef (player w)
  ∧ getBoundingClientRect <$> canvasRef (player w')
    = getBoundingClientRect <$> canvasRef (player w)
  ∧ isDrawing (player w') = true
  ∧ currentPath (player w') = path.

(** A clip is active exactly while a [stopClip] timer is pending. *)
Definition clip_sync (w : World) : Prop :=
  activeClipId (app w) = None ↔ timers (host w) = ∅.

(** What every clip made by a capture satisfies. *)
Definition captured_clip (c : Clip.t) : Prop :=
  Clip.speed c = 1 # 2
  ∧ Clip.name c ≠ ""
  ∧ Clip.duration c = parseFloat (toFixed2 (Clip.endTime c - Clip.startTime c)).

Definition is_import (ev : Event) : bool :=
  match ev with ZipUpload _ => true | _ => false end.

(** ** Example data *)

(** A host that replays one recorded exchange: every snapshot is written
    as the text [{}], which reads back as [data]; every archive is
    written as the two bytes [PK], which load as [entries]. *)
Definition recordedHost (data : AnalysisData.t) (entries : gmap string (list byte))
  : HostLib := {|
  JSON_stringify := λ _, "{}";
  JSON_parse := λ s, if String.eqb s "{}" then Some data else None;
  JSZip_generateAsync := λ _, String.list_byte_of_string "PK";
  JSZip_loadAsync := λ b,
    if String.eqb (String.string_of_list_byte b) "PK" then Some entries else None;
  Date_toISOString := λ _, "1970-01-01T00:00:00.000Z"
|}.

Definition ex_video_file : File.t := File.mk "run.mp4" [x01; x02; x03].

Definition ex_ctx : Canvas.Ctx := Canvas.mkCtx "#000000" 1 "butt" "miter" [] None [].
Definition ex_canvas : CanvasEl := mkCanvas 640 360 (mkRect 0 0 640 360) (Some ex_ctx).

(** The video element of a 10.1875 s video, paused at [t]. *)
Definition ex_video (t : number) : VideoEl := mkVideo t (163 # 16) true false 1.

Definition ex_drawing : Drawing.t :=
  Drawing.mk "1700000000000" 1 "#ff0000" 5
    [Point.mk 0 0 (Some true); Point.mk (1 # 2) (1 # 2) (Some false);
     Point.mk (1 # 4) (3 # 4) (Some true); Point.mk 1 1 (Some false)].

Definition ex_annotation : Annotation.t :=
  Annotation.mk "1700000000000" (1 # 2) (1 # 4) 1 "Point 1" "#ff0000".

(** A host for sessions that neither save nor import. *)
Definition idle_host : HostLib := recordedHost (AnalysisData.mk "" [] [] [] None) ∅.

(** A session: a video is loaded, two points are captured at 1 s and 2 s,
    and a note is typed. *)
Definition ex_events : list Event :=
  [VideoUpload (Some ex_video_file);
   Elements (Some (ex_video 1)) (Some ex_canvas);
   VideoTimeUpdate;
   PointerStart (Some "Point 1") (mkPointer 320 90);
   ClockTick 1;
   Elements (Some (ex_video 2)) (Some ex_canvas);
   VideoTimeUpdate;
   PointerStart (Some "Point 2") (mkPointer 160 180);
   EditNotes "stance too wide"].

Definition ex_now : N := 1700000000000.

Definition ex_world : World := @run idle_host ex_events (init ex_now).

(** The two clips of the session, as the captures made them. *)
Definition ex_clipB : Clip.t :=
  Clip.mk "1700000000000" "Point 1" 1 3 (200 # 100) (1 # 2) (320 # 640) (90 # 360).
Definition ex_clipA : Clip.t :=
  Clip.mk "1700000000001" "Point 2" 2 4 (200 # 100) (1 # 2) (160 # 640) (180 # 360).

(** The session with the first clip playing. *)
Definition ex_playing : World := @run idle_host (ex_events ++ [PlayClip ex_clipB]) (init ex_now).

(** The session continued with a capture at 9 s, less than two seconds
    before the end of the video. *)
Definition ex_late : World :=
  @run idle_host
    (ex_events ++ [Elements (Some (ex_video 9)) (Some ex_canvas); VideoTimeUpdate;
                   PointerStart (Some "Point 3") (mkPointer 320 180)])
    (init ex_now).

(** What [saveAnalysis] writes for the session under the recording host. *)
Definition ex_entries : gmap string (list byte) :=
  <["run.mp4" := File.bytes ex_video_file]>
    (<[analysis_entry := String.list_byte_of_string "{}"]> ∅).

Definition ex_host : HostLib := recordedHost (snapshot (app ex_world)) ex_entries.

(** An archive with no entry at all, under a host that loads it. *)
Definition ex_empty_archive : File.t := File.mk "empty.zip" (String.list_byte_of_string "PK").
Definition ex_empty_host : HostLib := recordedHost (AnalysisData.mk "" [] [] [] None) ∅.

(** The session with the pen selected, and the session five milliseconds
    later. *)
Definition ex_pen_world : World :=
  @run idle_host (ex_events ++ [ModeChange pen]) (init ex_now).
Definition ex_later : World :=
  @run idle_host (ex_events ++ [ClockTick 5]) (init ex_now).

Definition ex_moves : list PointerEvent := [mkPointer 330 100; mkPointer 340 120].

(** An archive that holds an analysis and no video, whose analysis names
    no video ([ex_bare_host]) or names one that is absent
    ([ex_orphan_host]); a file that is not an archive. *)
Definition ex_archive : File.t := File.mk "analysis.zip" (String.list_byte_of_string "PK").
Definition ex_json_only : gmap string (list byte) :=
  {[ analysis_entry := String.list_byte_of_string "{}" ]}.
Definition ex_bare_data : AnalysisData.t :=
  AnalysisData.mk "imported" [ex_drawing] [ex_annotation] [ex_clipB] None.
Definition ex_orphan_data : AnalysisData.t :=
  AnalysisData.mk "imported" [ex_drawing] [ex_annotation] [ex_clipB] (Some "run.mp4").
Definition ex_bare_host : HostLib := recordedHost ex_bare_data ex_json_only.
Definition ex_orphan_host : HostLib := recordedHost ex_orphan_data ex_json_only.
Definition ex_text_file : File.t := File.mk "notes.txt" (String.list_byte_of_string "hello").

(** ** Invariants of the clip state machine *)

(** The part of the world the clip timer lives in: the [clipTimeoutRef]
    cell, the pending [stopClip] timers and the handle counter. *)
Definition tview (w : World) : option nat * gmap nat Q * nat :=
  (clipTimeoutRef (app w), timers (host w), nextTimer (host w)).

(** Every pending [stopClip] timer is the one [clipTimeoutRef] holds, and
    its handle is a positive number below the counter. *)
Definition tracked (v : option nat * gmap nat Q * nat) : Prop :=
  (0 < v.2)%nat
  ∧ ∀ h : nat, is_Some (v.1.2 !! h) → v.1.1 = Some h ∧ (0 < h < v.2)%nat.

Definition timers_tracked (w : World) : Prop := tracked (tview w).

(** No pending handle and no future handle is below [k]. *)
Definition handles_from (k : nat) (w : World) : Prop :=
  (k ≤ nextTimer (host w))%nat
  ∧ ∀ h : nat, is_Some (timers (host w) !! h) → (k ≤ h)%nat.

(** The active-clip reference names a clip of the collection, if any. *)
Definition noDangling (s : App) : Prop :=
  match activeClipId s with
  | None => True
  | Some a => ∃ c, c ∈ clips s ∧ Clip.id c = a
  end.

(** The events that act on the clip timer. *)
Definition timer_event (ev : Event) : bool :=
  match ev with
  | PlayClip _ | StopClip | DeleteClip _ | TimerFires _ | ForeignTimer => true
  | _ => false
  end.

(** * Properties *)

(** ** Numbers *)

Lemma num_lt_spec (a b : number) : num_lt a b = true ↔ a < b.
Proof.
  unfold num_lt. rewrite negb_true_iff, <- not_true_iff_false, Qle_bool_iff.
  split; [apply Qnot_le_lt | apply Qlt_not_le].
Qed.

Lemma num_gt_spec (a b : number) : num_gt a b = true ↔ b < a.
Proof. apply (num_lt_spec b a). Qed.

Lemma num_gt_false (a b : number) : num_gt a b = false ↔ a <= b.
Proof.
  unfold num_gt. rewrite negb_false_iff. apply Qle_bool_iff.
Qed.

Lemma num_lt_decide (a b : number) : num_lt a b = bool_decide (a < b).
Proof.
  destruct (num_lt a b) eqn:E.
  - symmetry. apply bool_decide_eq_true, num_lt_spec, E.
  - symmetry. apply bool_decide_eq_false. intros H%num_lt_spec. congruence.
Qed.

(** [parseFloat(x.toFixed(2))] is the nearest hundredth. *)

Lemma parseFloat_scale (k : Z) : parseFloat k * 100 == inject_Z k.
Proof. unfold parseFloat, Qeq. simpl. lia. Qed.

Lemma toFixed2_cases (x : number) :
  ∃ n : Z, inject_Z n <= Qabs x * 100 + (1 # 2) < inject_Z n + 1
    ∧ ((x < 0 ∧ Qabs x == - x ∧ inject_Z (toFixed2 x) == - inject_Z n)
       ∨ (0 <= x ∧ Qabs x == x ∧ toFixed2 x = n)).
Proof.
  exists (Qfloor (Qabs x * 100 + (1 # 2))). split.
  - split; [apply Qfloor_le|].
    rewrite <- (inject_Z_plus _ 1). apply Qlt_floor.
  - unfold toFixed2. destruct (num_lt x 0) eqn:E.
    + apply num_lt_spec in E. left. split; [done|]. split.
      * apply Qabs_neg. by apply Qlt_le_weak.
      * by rewrite inject_Z_opp.
    + right. assert (0 <= x) as Hx.
      { apply Qnot_lt_le. intros H%num_lt_spec. congruence. }
      split; [done|]. split; [by apply Qabs_pos | done].
Qed.

Lemma toFixed2_error (x : number) : Qabs (parseFloat (toFixed2 x) - x) <= 1 # 200.
Proof.
  destruct (toFixed2_cases x) as (n & [Hlo Hhi] & Hsign).
  pose proof (parseFloat_scale (toFixed2 x)) as Hs.
  apply Qabs_Qle_condition.
  destruct Hsign as [(Hx & Ha & Hn) | (Hx & Ha & Hn)].
  - rewrite Ha in Hlo, Hhi. rewrite Hn in Hs. split; num_lra.
  - rewrite Ha in Hlo, Hhi. rewrite Hn in Hs |- *. split; num_lra.
Qed.

Lemma half_between (n k : Z) :
  inject_Z n <= inject_Z k + (1 # 2) → inject_Z k + (1 # 2) < inject_Z n + 1 → n = k.
Proof.
  intros Hlo Hhi.
  assert (n < k + 1)%Z as H1.
  { rewrite Zlt_Qlt, inject_Z_plus. change (inject_Z 1) with 1. lra. }
  assert (k < n + 1)%Z as H2.
  { rewrite Zlt_Qlt, inject_Z_plus. change (inject_Z 1) with 1. lra. }
  lia.
Qed.

Lemma toFixed2_exact (x : number) (k : Z) :
  x * 100 == inject_Z k → parseFloat (toFixed2 x) == x.
Proof.
  intros Hk.
  destruct (toFixed2_cases x) as (n & [Hlo Hhi] & Hsign).
  pose proof (parseFloat_scale (toFixed2 x)) as Hs.
  destruct Hsign as [(Hx & Ha & Hn) | (Hx & Ha & Hn)].
  - rewrite Ha in Hlo, Hhi. rewrite Hn in Hs.
    assert (n = (- k)%Z) as ->.
    { apply half_between; rewrite inject_Z_opp; num_lra. }
    rewrite inject_Z_opp in Hs. num_lra.
  - rewrite Ha in Hlo, Hhi. rewrite Hn in Hs |- *.
    assert (n = k) as -> by (apply half_between; num_lra).
    num_lra.
Qed.

(** ** The overlay: saved drawings *)

Section Overlay.
Variable canvas : CanvasEl.

Import VideoPlayer.

(** Once the pen is down on [prev] with an empty path, walking the rest of
    the points paints one segment per point that is not flagged, and
    leaves the brush as it was. *)
Lemma pathStep_walk (rest : list Point.t) :
  ∀ (ctx : Canvas.Ctx) (prev : Point.t),
    Canvas.penAt ctx = Some (scaled canvas prev) →
    Canvas.subpath ctx = [] →
    Canvas.painted (fold_left (pathStep canvas) rest (ctx, false)).1
    = Canvas.painted ctx ++ map (Canvas.strokeWith ctx) (spec_segments canvas prev rest).
Proof.
  induction rest as [|p rest IH]; intros ctx prev Hpen Hsub; simpl.
  - by rewrite app_nil_r.
  - destruct (isStart_set p) eqn:Hflag; simpl.
    + rewrite (IH _ p); [done | done | by simpl].
    + rewrite (IH _ p); [| done | done].
      unfold Canvas.lineTo. rewrite Hpen. simpl. rewrite Hsub. simpl.
      by rewrite <- app_assoc.
Qed.

Lemma pathStep_path (path : list Point.t) (ctx : Canvas.Ctx) :
  Canvas.subpath ctx = [] →
  Canvas.painted (fold_left (pathStep canvas) path (ctx, true)).1
  = Canvas.painted ctx ++ map (Canvas.strokeWith ctx) (spec_path canvas path).
Proof.
  intros Hsub. destruct path as [|p rest]; simpl.
  - by rewrite app_nil_r.
  - by rewrite (pathStep_walk rest _ p).
Qed.

Lemma currentPathStep_unflag (path : list Point.t) (acc : Canvas.Ctx * bool) :
  fold_left (currentPathStep canvas) path acc
  = fold_left (pathStep canvas) (map unflag path) acc.
Proof.
  revert acc. induction path as [|p path IH]; intros [ctx first]; [done|].
  simpl. rewrite <- IH. f_equal.
  unfold isStart_set. simpl. by rewrite orb_false_r.
Qed.

Lemma drawSaved_painted (t : number) (ctx : Canvas.Ctx) (d : Drawing.t) :
  Canvas.painted (drawSaved canvas t ctx d)
  = Canvas.painted ctx
      ++ (if bool_decide (Qabs (Drawing.time d - t) < 1 # 2)
          then spec_strokes canvas d else []).
Proof.
  unfold drawSaved, Math_abs, tolerance. rewrite num_lt_decide.
  case_bool_decide as Hwin.
  - by rewrite pathStep_path.
  - by rewrite app_nil_r.
Qed.

Lemma drawSaved_all (t : number) (drawings : list Drawing.t) :
  ∀ ctx : Canvas.Ctx,
    Canvas.painted (fold_left (drawSaved canvas t) drawings ctx)
    = Canvas.painted ctx ++ spec_overlay canvas t drawings.
Proof.
  unfold spec_overlay.
  induction drawings as [|d drawings IH]; intros ctx; simpl.
  - by rewrite app_nil_r.
  - rewrite IH, drawSaved_painted, filter_cons.
    case_bool_decide as Hwin.
    + rewrite decide_True by done. simpl. by rewrite <- app_assoc.
    + rewrite decide_False by done. by rewrite app_nil_r.
Qed.

Lemma drawCurrent_painted (brushColor : string) (brushSize : number)
    (isDrawing : bool) (currentPath : list Point.t) (ctx : Canvas.Ctx) :
  Canvas.painted (drawCurrent canvas brushColor brushSize isDrawing currentPath ctx)
  = Canvas.painted ctx ++ spec_current canvas brushColor brushSize isDrawing currentPath.
Proof.
  unfold drawCurrent, spec_current. destruct isDrawing; simpl.
  - destruct currentPath as [|p rest].
    + simpl. by rewrite app_nil_r.
    + cbn [length Nat.ltb Nat.leb]. rewrite currentPathStep_unflag.
      by rewrite pathStep_path.
  - by rewrite app_nil_r.
Qed.

End Overlay.


(** ** The overlay: annotation markers *)

Lemma annotationMarker_shown (video : VideoEl) (A : Annotation.t) :
  VideoPlayer.annotationMarker video A = Some (VideoPlayer.markerOf A)
  ↔ Qabs (Annotation.time A - video_currentTime video) <= 1 # 2.
Proof.
  unfold VideoPlayer.annotationMarker, Math_abs.
  destruct (num_gt _ _) eqn:E.
  - apply num_gt_spec in E. split; [done|]. intros H. by apply Qle_not_lt in H.
  - apply num_gt_false in E. done.
Qed.


(** ** Point capture: the annotation and its companion clip *)

Lemma truthy_str_nonempty (label : string) : label ≠ "" → truthy_str (Some label) = true.
Proof.
  intros Hne. unfold truthy_str. apply negb_true_iff, String.eqb_neq, Hne.
Qed.

Lemma truthy_str_false (answer : option string) :
  truthy_str answer = false ↔ answer = None ∨ answer = Some "".
Proof.
  destruct answer as [s|]; simpl.
  - rewrite negb_false_iff, String.eqb_eq. split; [intros ->; by right | by intros [|[= ->]]].
  - split; [by left | done].
Qed.

(** In point mode a pointer press on the idle player is a call of
    [onAddAnnotation] at the normalized position and the video's time. *)
Lemma handleStart_point (answer : option string) (e : PointerEvent) (w : World)
    (video : VideoEl) :
  toolMode (app w) = point →
  activeClip (app w) = None →
  videoRef (player w) = Some video →
  handleStart answer e w
  = handleAddAnnotation answer (getNormalizedPos (canvasRef (player w)) e).1
      (getNormalizedPos (canvasRef (player w)) e).2 (video_currentTime video) w.
Proof. intros Hmode Hidle Hvideo. unfold handleStart. by rewrite Hidle, Hvideo, Hmode. Qed.

(** The record pair that [handleAddAnnotation] appends. *)
Lemma handleAddAnnotation_labelled (label : string) (x y T : number) (w : World) :
  label ≠ "" →
  handleAddAnnotation (Some label) x y T w
  = (setAnnotations (λ prev, prev ++
       [Annotation.mk (Date_now_toString w) x y T label (brushColor (app w))]) ;;
     setClips (λ prev, prev ++
       [Clip.mk (Date_now_toString w) label T (Math_min (T + 2) (duration (app w)))
          (parseFloat (toFixed2 (Math_min (T + 2) (duration (app w)) - T))) (1 # 2) x y])) w.
Proof.
  intros Hne. unfold handleAddAnnotation. by rewrite (truthy_str_nonempty _ Hne).
Qed.



(** C9.  When the prompt is dismissed or returns the empty string, the
    capture changes nothing: no annotation, no clip, no other state, no
    alert and no console line.  This holds for the handler and for the
    pointer press that calls it in point mode. *)
Theorem C9_capture_without_label_changes_nothing
    (w : World) (answer : option string) (x y T : number) (e : PointerEvent) :
  answer = None ∨ answer = Some "" →
  handleAddAnnotation answer x y T w = w
  ∧ (toolMode (app w) = point → handleStart answer e w = w).
Proof.
  intros Hnone%truthy_str_false.
  assert (∀ x y T, handleAddAnnotation answer x y T w = w) as Hnop.
  { intros. unfold handleAddAnnotation. by rewrite Hnone. }
  split; [apply Hnop|].
  intros Hmode. unfold handleStart. rewrite Hmode.
  destruct (activeClip (app w)); [done|].
  destruct (videoRef (player w)); [apply Hnop | done].
Qed.

(** ** Deleting a clip *)

Lemma onDeleteClip_inactive (id : string) (w : World) :
  activeClipId (app w) ≠ Some id →
  onDeleteClip id w = setClips (λ prev, filter (λ c, Clip.id c ≠ id) prev) w.
Proof.
  intros Hne. unfold onDeleteClip. by rewrite bool_decide_eq_false_2.
Qed.

(** C10.  Deleting a clip that is not the active one removes the clips
    with that id, keeps the others in order, and changes nothing else:
    annotations, drawings, notes, the active clip, the playback rate, the
    play state, the player and the host are as before. *)
Theorem C10_delete_inactive_clip_only_filters_clips (w : World) (id : string) :
  activeClipId (app w) ≠ Some id →
  let w' := onDeleteClip id w in
  clips (app w') = filter (λ c, Clip.id c ≠ id) (clips (app w))
  ∧ (∀ c, c ∈ clips (app w') ↔ c ∈ clips (app w) ∧ Clip.id c ≠ id)
  ∧ annotations (app w') = annotations (app w)
  ∧ drawings (app w') = drawings (app w)
  ∧ notes (app w') = notes (app w)
  ∧ activeClipId (app w') = activeClipId (app w)
  ∧ playbackRate (app w') = playbackRate (app w)
  ∧ isPlaying (app w') = isPlaying (app w)
  ∧ w' = mkWorld (with_clips (filter (λ c, Clip.id c ≠ id) (clips (app w))) (app w))
                 (player w) (host w).
Proof.
  intros Hne w'. subst w'. rewrite onDeleteClip_inactive by done.
  split; [done|]. split.
  - intros c. cbn. rewrite list_elem_of_filter. tauto.
  - repeat split.
Qed.

(** ** The clip timer *)

Section ClipTimer.
Context `{HostLib}.

(** Events that are not timer events leave the timer view alone. *)
Lemma step_tview (ev : Event) (w : World) :
  timer_event ev = false → tview (step ev w) = tview w.
Proof.
  intros Hev. destruct ev; try discriminate Hev; cbn [step]; clear Hev.
  all: unfold handleStart, handleMove, handleEnd, handleTimeUpdate, seekEffect,
         handleAddAnnotation, onClearAll, handleVideoUpload, handleZipUpload,
         saveAnalysis, loadFailed.
  all: repeat case_match; reflexivity.
Qed.

Lemma tview_cancel (w : World) :
  tview (cancelClipTimeout w)
  = (clipTimeoutRef (app w),
     (if truthy_handle (clipTimeoutRef (app w))
      then delete (default 0%nat (clipTimeoutRef (app w))) (timers (host w))
      else timers (host w)),
     nextTimer (host w)).
Proof. unfold cancelClipTimeout. by case_match. Qed.

(** Under the invariant, cancelling the tracked timer leaves none pending. *)
Lemma cancel_clears (w : World) :
  timers_tracked w → timers (host (cancelClipTimeout w)) = ∅.
Proof.
  intros [_ Htr]. simpl in Htr.
  change (timers (host (cancelClipTimeout w))) with (tview (cancelClipTimeout w)).1.2.
  rewrite tview_cancel. simpl.
  apply map_eq. intros h. rewrite lookup_empty.
  destruct (clipTimeoutRef (app w)) as [r|] eqn:Href; simpl.
  - destruct (Nat.eqb_spec r 0) as [->|Hr]; simpl.
    + apply eq_None_not_Some. intros [[= <-] [Hpos _]]%Htr. lia.
    + destruct (decide (h = r)) as [->|Hne]; [apply lookup_delete_eq|].
      rewrite lookup_delete_ne by done.
      apply eq_None_not_Some. intros [[= <-] _]%Htr. done.
  - apply eq_None_not_Some. by intros [? _]%Htr.
Qed.

Lemma tracked_empty (r : option nat) (n : nat) : (0 < n)%nat → tracked (r, ∅, n).
Proof.
  intros Hn. split; [done|]. simpl. intros h [? Hh]. by rewrite lookup_empty in Hh.
Qed.

Lemma tview_stopClip (w : World) :
  tview (stopClip w)
  = (clipTimeoutRef (app w), timers (host (cancelClipTimeout w)), nextTimer (host w)).
Proof.
  change (tview (stopClip w)) with (tview (cancelClipTimeout w)).
  rewrite tview_cancel.
  change (timers (host (cancelClipTimeout w))) with (tview (cancelClipTimeout w)).1.2.
  by rewrite tview_cancel.
Qed.

Lemma tview_playClip (clip : Clip.t) (w : World) :
  tview (playClip clip w)
  = (Some (nextTimer (host w)),
     <[nextTimer (host w) := durationMs clip]> (timers (host (cancelClipTimeout w))),
     S (nextTimer (host w))).
Proof.
  unfold playClip, seq, armClipTimeout, tview. cbn.
  pose proof (tview_cancel w) as Hc. unfold tview in Hc.
  injection Hc as _ Ht Hn. by rewrite Hn.
Qed.

Lemma tracked_stopClip (w : World) : timers_tracked w → timers_tracked (stopClip w).
Proof.
  intros Htr. unfold timers_tracked. rewrite tview_stopClip, (cancel_clears w Htr).
  destruct Htr as [Hn _]. by apply tracked_empty.
Qed.

Lemma tracked_playClip (clip : Clip.t) (w : World) :
  timers_tracked w → timers_tracked (playClip clip w).
Proof.
  intros Htr. unfold timers_tracked. rewrite tview_playClip, (cancel_clears w Htr).
  destruct Htr as [Hn _]. simpl in Hn.
  split; simpl; [lia|]. intros h [ms Hh].
  apply lookup_insert_Some in Hh as [[<- _]|[_ Hh]]; [split; [done | lia]|].
  by rewrite lookup_empty in Hh.
Qed.

Lemma tracked_clearTimeout (handle : nat) (w : World) :
  timers_tracked w → timers_tracked (clearTimeout handle w).
Proof.
  intros [Hn Htr]. split; [done|]. simpl in *. intros h [ms Hh].
  apply lookup_delete_Some in Hh as [_ Hh]. apply Htr. by exists ms.
Qed.

Lemma tracked_step (ev : Event) (w : World) :
  timers_tracked w → timers_tracked (step ev w).
Proof.
  intros Htr. destruct (timer_event ev) eqn:Hev.
  - destruct ev; try discriminate Hev; cbn [step].
    + by apply tracked_playClip.
    + by apply tracked_stopClip.
    + unfold onDeleteClip, seq. case_bool_decide.
      * by apply (tracked_stopClip w).
      * done.
    + unfold fireTimer. case_match; [|done].
      by apply tracked_stopClip, tracked_clearTimeout.
    + destruct Htr as [Hn Htr]. split; simpl in *; [lia|].
      intros h Hh. destruct (Htr h Hh) as [-> ?]. split; [done | lia].
  - unfold timers_tracked. by rewrite step_tview.
Qed.

Lemma tracked_run (evs : list Event) :
  ∀ w : World, timers_tracked w → timers_tracked (run evs w).
Proof.
  induction evs as [|ev evs IH]; intros w Htr; [done|].
  apply IH, tracked_step, Htr.
Qed.

Lemma tracked_reachable (w : World) : reachable w → timers_tracked w.
Proof.
  intros (now & evs & ->). apply tracked_run, tracked_empty. simpl. lia.
Qed.

(** Handles only grow: once every pending and future handle is at least
    [k], it stays so. *)
Lemma handles_from_step (k : nat) (ev : Event) (w : World) :
  handles_from k w → handles_from k (step ev w).
Proof.
  intros [Hk Hfrom].
  assert (∀ w0, handles_from k w0 → handles_from k (cancelClipTimeout w0)) as Hcancel.
  { intros w0 [Hk0 Hfrom0]. unfold handles_from.
    change (nextTimer (host (cancelClipTimeout w0))) with (tview (cancelClipTimeout w0)).2.
    change (timers (host (cancelClipTimeout w0))) with (tview (cancelClipTimeout w0)).1.2.
    rewrite tview_cancel. simpl. split; [done|].
    intros h [ms Hh]. apply Hfrom0. case_match; [|by exists ms].
    apply lookup_delete_Some in Hh as [_ Hh]. by exists ms. }
  assert (∀ w0, handles_from k w0 → handles_from k (stopClip w0)) as Hstop.
  { intros w0 Hw0. apply (Hcancel w0 Hw0). }
  destruct (timer_event ev) eqn:Hev.
  - destruct ev; try discriminate Hev; cbn [step].
    + destruct (Hcancel w (conj Hk Hfrom)) as [Hk' Hfrom'].
      unfold handles_from.
      change (nextTimer (host (playClip clip w))) with (tview (playClip clip w)).2.
      change (timers (host (playClip clip w))) with (tview (playClip clip w)).1.2.
      rewrite tview_playClip. simpl. split; [lia|].
      intros h [ms Hh]. apply lookup_insert_Some in Hh as [[<- _]|[_ Hh]]; [done|].
      apply Hfrom'. by exists ms.
    + by apply Hstop.
    + unfold onDeleteClip, seq. case_bool_decide; [by apply (Hstop w) | done].
    + unfold fireTimer. case_match; [|done].
      apply Hstop. split; [done|]. simpl. intros h [ms Hh].
      apply lookup_delete_Some in Hh as [_ Hh]. apply Hfrom. by exists ms.
    + split; simpl; [lia | done].
  - pose proof (step_tview ev w Hev) as Hv. unfold tview in Hv.
    injection Hv as _ Ht Hn. unfold handles_from. by rewrite Ht, Hn.
Qed.

Lemma handles_from_run (k : nat) (evs : list Event) :
  ∀ w : World, handles_from k w → handles_from k (run evs w).
Proof.
  induction evs as [|ev evs IH]; intros w Hw; [done|].
  apply IH, handles_from_step, Hw.
Qed.

End ClipTimer.

Section ClipStateMachine.
Context `{HostLib}.

Lemma app_cancel (w : World) : app (cancelClipTimeout w) = app w.
Proof. unfold cancelClipTimeout. by case_match. Qed.

Lemma timers_playClip (clip : Clip.t) (w : World) :
  timers_tracked w →
  clipTimeoutRef (app (playClip clip w)) = Some (nextTimer (host w))
  ∧ timers (host (playClip clip w)) = {[ nextTimer (host w) := durationMs clip ]}.
Proof.
  intros Htr. pose proof (tview_playClip clip w) as Hv.
  rewrite (cancel_clears w Htr) in Hv.
  split.
  - change (clipTimeoutRef (app (playClip clip w))) with (tview (playClip clip w)).1.1.
    by rewrite Hv.
  - change (timers (host (playClip clip w))) with (tview (playClip clip w)).1.2.
    rewrite Hv. apply insert_empty.
Qed.

Lemma durationMs_seconds (clip : Clip.t) :
  durationMs clip / 1000
  == (Clip.endTime clip - Clip.startTime clip) / Clip.speed clip.
Proof.
  unfold durationMs.
  generalize ((Clip.endTime clip - Clip.startTime clip) / Clip.speed clip).
  intros q. field.
Qed.

(** The clip the player zooms on is the first one with the active id. *)
Lemma activeClip_named (s : App) (a : string) (A : Clip.t) :
  activeClipId s = Some a → A ∈ clips s → Clip.id A = a →
  ∃ c : Clip.t, activeClip s = Some c ∧ Clip.id c = a.
Proof.
  intros Hact Hin Hid. unfold activeClip. rewrite Hact.
  induction Hin as [A l | A c l Hin IH]; simpl.
  - exists A. by rewrite Hid, String.eqb_refl.
  - destruct (String.eqb_spec (Clip.id c) a) as [Hc|Hc]; [by exists c | by apply IH].
Qed.

Lemma clips_playClip (clip : Clip.t) (w : World) :
  clips (app (playClip clip w)) = clips (app w).
Proof. unfold playClip, seq. cbn. by rewrite app_cancel. Qed.

(** C5.  When [playClip A] runs while clip B is active, the active clip is
    A alone (and the player zooms on a clip with A's id when A is in the
    collection); B's timer is cleared by the first statement, before any
    state of A is set; the only pending timer is A's, armed for
    [(A.endTime - A.startTime) / A.speed] seconds; and no timer that was
    pending before the call is ever pending again, so its firing finds
    nothing to run. *)
Theorem C5_playClip_supersedes_active_clip (w : World) (A B : Clip.t) :
  reachable w →
  activeClipId (app w) = Some (Clip.id B) →
  let w' := playClip A w in
  activeClipId (app w') = Some (Clip.id A)
  ∧ (A ∈ clips (app w) →
     ∃ c : Clip.t, activeClip (app w') = Some c ∧ Clip.id c = Clip.id A)
  ∧ timers (host (cancelClipTimeout w)) = ∅
  ∧ activeClipId (app (cancelClipTimeout w)) = Some (Clip.id B)
  ∧ (∃ h : nat, clipTimeoutRef (app w') = Some h
                ∧ timers (host w') = {[ h := durationMs A ]})
  ∧ durationMs A / 1000 == (Clip.endTime A - Clip.startTime A) / Clip.speed A
  ∧ ∀ hB : nat, is_Some (timers (host w) !! hB) →
      ∀ evs : list Event,
        timers (host (run evs w')) !! hB = None
        ∧ fireTimer hB (run evs w') = run evs w'.
Proof.
  intros Htr%tracked_reachable HB w'. subst w'.
  destruct (timers_playClip A w Htr) as [Href Htimers].
  split; [done|].
  split; [intros HA; apply (activeClip_named _ _ A); by rewrite ?clips_playClip|].
  split; [by apply cancel_clears|].
  split; [by rewrite app_cancel|].
  split; [by eexists|]. split; [apply durationMs_seconds|].
  intros hB HhB evs.
  assert (timers (host (run evs (playClip A w))) !! hB = None) as Hgone.
  { destruct (Htr) as [_ Hall]. destruct (Hall hB HhB) as [_ [_ Hlt]]. simpl in Hlt.
    assert (handles_from (nextTimer (host w)) (playClip A w)) as Hfrom.
    { split.
      - change (nextTimer (host (playClip A w))) with (tview (playClip A w)).2.
        rewrite tview_playClip. simpl. lia.
      - rewrite Htimers. intros h [ms Hh].
        apply lookup_singleton_Some in Hh as [<- _]. done. }
    apply (handles_from_run _ evs) in Hfrom as [_ Hfrom].
    apply eq_None_not_Some. intros Hpending%Hfrom. lia. }
  split; [done|]. unfold fireTimer. by rewrite Hgone.
Qed.

Lemma stopClip_idle (w : World) :
  activeClipId (app (stopClip w)) = None
  ∧ isPlaying (app (stopClip w)) = false
  ∧ playbackRate (app (stopClip w)) = 1
  ∧ clips (app (stopClip w)) = clips (app w).
Proof.
  repeat split. unfold stopClip, seq. cbn. by rewrite app_cancel.
Qed.

Lemma activeClip_None (s : App) : activeClipId s = None → activeClip s = None.
Proof. intros Hs. unfold activeClip. by rewrite Hs. Qed.

Lemma onDeleteClip_noDangling (id : string) (w : World) :
  noDangling (app w) → noDangling (app (onDeleteClip id w)).
Proof.
  unfold onDeleteClip, seq. case_bool_decide as Hact.
  { intros _. unfold noDangling, stopClip, seq. by cbn. }
  unfold noDangling, skip. cbn. destruct (activeClipId (app w)) as [a|]; [|done].
  intros (c & Hc & Hid). exists c. split; [|done].
  apply list_elem_of_filter. split; [|done]. congruence.
Qed.


End ClipStateMachine.

(** ** The archive: export and import *)

Section Archive.
Context `{HostLib}.

Lemma or_default_truthy (s : option string) (d : string) :
  d ≠ "" → truthy_str (Some (or_default s d)) = true.
Proof.
  intros Hd. apply truthy_str_nonempty. unfold or_default.
  destruct s as [s|]; [|done].
  destruct (String.eqb_spec s ""); done.
Qed.

Lemma saveAnalysis_download (w : World) (f : File.t) :
  videoFile (app w) = Some f →
  saveAnalysis w
  = saveAs (JSZip_generateAsync (archiveEntries (app w) f))
      ("Analysis_" +:+ replace_colon_dot (Date_toISOString (Date_now (host w))) +:+ ".zip") w.
Proof. intros Hf. unfold saveAnalysis. by rewrite Hf. Qed.

Lemma archiveEntries_json (s : App) (f : File.t) :
  or_default (videoFileName s) default_video_name ≠ analysis_entry →
  archiveEntries s f !! analysis_entry
  = Some (String.list_byte_of_string (JSON_stringify (snapshot s))).
Proof.
  intros Hne. unfold archiveEntries.
  rewrite lookup_insert_ne by done. apply lookup_insert_eq.
Qed.

Lemma archiveEntries_video (s : App) (f : File.t) :
  archiveEntries s f !! or_default (videoFileName s) default_video_name
  = Some (File.bytes f).
Proof. unfold archiveEntries. apply lookup_insert_eq. Qed.

(** The import of an archive whose JSON entry parses and whose video
    entry is present ends with [loadVideoFile]. *)
Lemma handleZipUpload_complete (file : File.t) (zip : gmap string (list byte))
    (jsonFile videoBlob : list byte) (data : AnalysisData.t) (name : string) (w : World) :
  JSZip_loadAsync (File.bytes file) = Some zip →
  zip !! analysis_entry = Some jsonFile →
  JSON_parse (String.string_of_list_byte jsonFile) = Some data →
  AnalysisData.primaryVideoFileName data = Some name →
  name ≠ "" →
  zip !! name = Some videoBlob →
  handleZipUpload (Some file) w
  = (setNotes (AnalysisData.notes data) ;;
     setDrawings (λ _, AnalysisData.drawings data) ;;
     setAnnotations (λ _, AnalysisData.annotations data) ;;
     setClips (λ _, AnalysisData.clips data) ;;
     loadVideoFile (File.mk name videoBlob)) w.
Proof.
  intros Hzip Hjson Hparse Hname Hne Hvideo. unfold handleZipUpload.
  rewrite Hzip, Hjson, Hparse, Hname, (truthy_str_nonempty _ Hne). simpl.
  by rewrite Hvideo.
Qed.

(** C1, on the code.  Exporting a session and importing the archive, with
    a JSON codec and an archive codec that are lossless on what was
    exported, restores the video, name and bytes, and leaves the notes
    and the four collections empty: [loadVideoFile], called last, resets
    what the import had just set. *)
Theorem C1_import_of_export_restores_video_but_empties_analysis
    (w w0 : World) (f : File.t) :
  videoFile (app w) = Some f →
  or_default (videoFileName (app w)) default_video_name ≠ analysis_entry →
  JSON_parse (JSON_stringify (snapshot (app w))) = Some (snapshot (app w)) →
  JSZip_loadAsync (JSZip_generateAsync (archiveEntries (app w) f))
    = Some (archiveEntries (app w) f) →
  ∃ archive : File.t,
    downloads (host (saveAnalysis w)) = downloads (host w) ++ [archive]
    ∧ let w1 := handleZipUpload (Some archive) w0 in
      notes (app w1) = ""
      ∧ drawings (app w1) = []
      ∧ annotations (app w1) = []
      ∧ clips (app w1) = []
      ∧ videoFile (app w1)
        = Some (File.mk (or_default (videoFileName (app w)) default_video_name)
                        (File.bytes f))
      ∧ alerts (host w1) = alerts (host w0).
Proof.
  intros Hf Hname Hjson Hzip. rewrite (saveAnalysis_download w f Hf).
  eexists. split; [reflexivity|]. cbv zeta.
  erewrite handleZipUpload_complete; cycle 1.
  - exact Hzip.
  - by apply archiveEntries_json.
  - rewrite String.string_of_list_byte_of_string. exact Hjson.
  - reflexivity.
  - apply String.eqb_neq. by apply negb_true_iff, (or_default_truthy _ default_video_name).
  - apply archiveEntries_video.
  - repeat split.
Qed.

(** The [catch] block: a file that is not an archive. *)
Lemma handleZipUpload_not_an_archive (file : File.t) (w : World) :
  JSZip_loadAsync (File.bytes file) = None →
  app (handleZipUpload (Some file) w) = app w
  ∧ alerts (host (handleZipUpload (Some file) w))
    = alerts (host w) ++ ["Failed to load analysis file."].
Proof. intros Hzip. unfold handleZipUpload. by rewrite Hzip. Qed.

(** The [catch] block: a JSON entry that does not parse. *)
Lemma handleZipUpload_malformed_json (file : File.t) (zip : gmap string (list byte))
    (jsonFile : list byte) (w : World) :
  JSZip_loadAsync (File.bytes file) = Some zip →
  zip !! analysis_entry = Some jsonFile →
  JSON_parse (String.string_of_list_byte jsonFile) = None →
  app (handleZipUpload (Some file) w) = app w
  ∧ alerts (host (handleZipUpload (Some file) w))
    = alerts (host w) ++ ["Failed to load analysis file."].
Proof.
  intros Hzip Hjson Hparse. unfold handleZipUpload. by rewrite Hzip, Hjson, Hparse.
Qed.

(** The referenced video entry is missing: the analysis is applied, the
    video is left as it was, and the notice is a different one. *)
Lemma handleZipUpload_video_missing (file : File.t) (zip : gmap string (list byte))
    (jsonFile : list byte) (data : AnalysisData.t) (name : string) (w : World) :
  JSZip_loadAsync (File.bytes file) = Some zip →
  zip !! analysis_entry = Some jsonFile →
  JSON_parse (String.string_of_list_byte jsonFile) = Some data →
  AnalysisData.primaryVideoFileName data = Some name →
  name ≠ "" →
  zip !! name = None →
  let w' := handleZipUpload (Some file) w in
  notes (app w') = AnalysisData.notes data
  ∧ drawings (app w') = AnalysisData.drawings data
  ∧ annotations (app w') = AnalysisData.annotations data
  ∧ clips (app w') = AnalysisData.clips data
  ∧ videoSrc (app w') = videoSrc (app w)
  ∧ videoFile (app w') = videoFile (app w)
  ∧ videoFileName (app w') = videoFileName (app w)
  ∧ alerts (host w')
    = alerts (host w) ++ ["Analysis loaded, but the video file was missing in the archive."].
Proof.
  intros Hzip Hjson Hparse Hname Hne Hvideo. unfold handleZipUpload.
  rewrite Hzip, Hjson, Hparse, Hname, (truthy_str_nonempty _ Hne). simpl.
  by rewrite Hvideo.
Qed.

(** C7, on the code.  An archive that loads but has no
    [analysis_data.json] entry is skipped by the guard [if (jsonFile)],
    which has no [else]: the world is unchanged, so the store is intact,
    and no alert and no console line is produced. *)
Theorem C7_archive_without_json_entry_gives_no_notice
    (file : File.t) (zip : gmap string (list byte)) (w : World) :
  JSZip_loadAsync (File.bytes file) = Some zip →
  zip !! analysis_entry = None →
  handleZipUpload (Some file) w = w
  ∧ alerts (host (handleZipUpload (Some file) w)) = alerts (host w).
Proof.
  intros Hzip Hjson. unfold handleZipUpload. by rewrite Hzip, Hjson.
Qed.

End Archive.

(** * The theorems at concrete inputs *)

Example ex_world_clips : clips (app ex_world) = [ex_clipB; ex_clipA].
Proof. vm_compute. reflexivity. Qed.

Example ex_world_notes : notes (app ex_world) = "stance too wide".
Proof. vm_compute. reflexivity. Qed.

(** The two scenarios of the specification: a capture at 9.5 s in a 10 s
    video gives a clip that ends at 10 s and lasts 0.5 s; a clip from 2 s
    to 4 s at half speed is stopped after 4000 ms. *)
Example scenario_clamped_capture :
  ∃ c : Clip.t,
    clips (app (handleAddAnnotation (Some "X") (1 # 2) (1 # 2) (19 # 2)
                  (upd_app (with_duration 10) (init ex_now)))) = [c]
    ∧ Clip.endTime c == 10 ∧ Clip.duration c == 1 # 2.
Proof. eexists. split; [vm_compute; reflexivity|]. split; vm_compute; reflexivity. Qed.

Example scenario_clip_timeout : durationMs ex_clipA == 4000.
Proof. vm_compute. reflexivity. Qed.

(** [onClearAll] empties the collection without stopping the active clip:
    the reference then names a clip that is gone, and the player, which
    resolves it in the collection, shows no zoom. *)
Remark onClearAll_keeps_active_reference :
  activeClipId (app (onClearAll true ex_playing)) = Some (Clip.id ex_clipB)
  ∧ clips (app (onClearAll true ex_playing)) = []
  ∧ activeClip (app (onClearAll true ex_playing)) = None.
Proof. repeat split; vm_compute; reflexivity. Qed.







Lemma C9_witness :
  (@None string = None ∨ @None string = Some "")
  ∧ handleAddAnnotation None (1 # 2) (1 # 2) 9 ex_world = ex_world
  ∧ (toolMode (app ex_world) = point →
     handleStart None (mkPointer 320 180) ex_world = ex_world).
Proof.
  split; [by left|].
  apply (C9_capture_without_label_changes_nothing
           ex_world None (1 # 2) (1 # 2) 9 (mkPointer 320 180)).
  by left.
Defined.

Lemma C10_witness :
  activeClipId (app ex_playing) ≠ Some (Clip.id ex_clipA)
  ∧ let w' := onDeleteClip (Clip.id ex_clipA) ex_playing in
    clips (app w') = filter (λ c, Clip.id c ≠ Clip.id ex_clipA) (clips (app ex_playing))
    ∧ (∀ c, c ∈ clips (app w') ↔ c ∈ clips (app ex_playing) ∧ Clip.id c ≠ Clip.id ex_clipA)
    ∧ annotations (app w') = annotations (app ex_playing)
    ∧ drawings (app w') = drawings (app ex_playing)
    ∧ notes (app w') = notes (app ex_playing)
    ∧ activeClipId (app w') = activeClipId (app ex_playing)
    ∧ playbackRate (app w') = playbackRate (app ex_playing)
    ∧ isPlaying (app w') = isPlaying (app ex_playing)
    ∧ w' = mkWorld (with_clips (filter (λ c, Clip.id c ≠ Clip.id ex_clipA)
                                       (clips (app ex_playing))) (app ex_playing))
                   (player ex_playing) (host ex_playing).
Proof.
  split; [vm_compute; discriminate|].
  apply (C10_delete_inactive_clip_only_filters_clips ex_playing (Clip.id ex_clipA)).
  vm_compute. discriminate.
Defined.

Lemma C5_witness :
  @reachable idle_host ex_playing
  ∧ activeClipId (app ex_playing) = Some (Clip.id ex_clipB)
  ∧ let w' := playClip ex_clipA ex_playing in
    activeClipId (app w') = Some (Clip.id ex_clipA)
    ∧ (ex_clipA ∈ clips (app ex_playing) →
       ∃ c : Clip.t, activeClip (app w') = Some c ∧ Clip.id c = Clip.id ex_clipA)
    ∧ timers (host (cancelClipTimeout ex_playing)) = ∅
    ∧ activeClipId (app (cancelClipTimeout ex_playing)) = Some (Clip.id ex_clipB)
    ∧ (∃ h : nat, clipTimeoutRef (app w') = Some h
                  ∧ timers (host w') = {[ h := durationMs ex_clipA ]})
    ∧ durationMs ex_clipA / 1000
      == (Clip.endTime ex_clipA - Clip.startTime ex_clipA) / Clip.speed ex_clipA
    ∧ ∀ hB : nat, is_Some (timers (host ex_playing) !! hB) →
        ∀ evs : list Event,
          timers (host (@run idle_host evs w')) !! hB = None
          ∧ fireTimer hB (@run idle_host evs w') = @run idle_host evs w'.
Proof.
  assert (@reachable idle_host ex_playing) as Hreach.
  { exists ex_now, (ex_events ++ [PlayClip ex_clipB]). reflexivity. }
  assert (activeClipId (app ex_playing) = Some (Clip.id ex_clipB)) as Hact.
  { vm_compute. reflexivity. }
  split; [exact Hreach|]. split; [exact Hact|].
  exact (@C5_playClip_supersedes_active_clip idle_host ex_playing ex_clipA ex_clipB
           Hreach Hact).
Defined.


Lemma C1_witness :
  videoFile (app ex_world) = Some ex_video_file
  ∧ or_default (videoFileName (app ex_world)) default_video_name ≠ analysis_entry
  ∧ @JSON_parse ex_host (@JSON_stringify ex_host (snapshot (app ex_world)))
    = Some (snapshot (app ex_world))
  ∧ @JSZip_loadAsync ex_host
      (@JSZip_generateAsync ex_host (@archiveEntries ex_host (app ex_world) ex_video_file))
    = Some (@archiveEntries ex_host (app ex_world) ex_video_file)
  ∧ ∃ archive : File.t,
      downloads (host (@saveAnalysis ex_host ex_world)) = downloads (host ex_world) ++ [archive]
      ∧ let w1 := @handleZipUpload ex_host (Some archive) (init ex_now) in
        notes (app w1) = ""
        ∧ drawings (app w1) = []
        ∧ annotations (app w1) = []
        ∧ clips (app w1) = []
        ∧ videoFile (app w1)
          = Some (File.mk (or_default (videoFileName (app ex_world)) default_video_name)
                          (File.bytes ex_video_file))
        ∧ alerts (host w1) = alerts (host (init ex_now)).
Proof.
  assert (videoFile (app ex_world) = Some ex_video_file) as Hf.
  { vm_compute. reflexivity. }
  assert (or_default (videoFileName (app ex_world)) default_video_name ≠ analysis_entry)
    as Hname.
  { vm_compute. discriminate. }
  assert (@JSON_parse ex_host (@JSON_stringify ex_host (snapshot (app ex_world)))
          = Some (snapshot (app ex_world))) as Hjson.
  { reflexivity. }
  assert (@JSZip_loadAsync ex_host
            (@JSZip_generateAsync ex_host
               (@archiveEntries ex_host (app ex_world) ex_video_file))
          = Some (@archiveEntries ex_host (app ex_world) ex_video_file)) as Hzip.
  { vm_compute. reflexivity. }
  split; [exact Hf|]. split; [exact Hname|]. split; [exact Hjson|]. split; [exact Hzip|].
  exact (@C1_import_of_export_restores_video_but_empties_analysis ex_host
           ex_world (init ex_now) ex_video_file Hf Hname Hjson Hzip).
Defined.

Lemma C7_witness :
  @JSZip_loadAsync ex_empty_host (File.bytes ex_empty_archive) = Some ∅
  ∧ (∅ : gmap string (list byte)) !! analysis_entry = None
  ∧ @handleZipUpload ex_empty_host (Some ex_empty_archive) ex_world = ex_world
  ∧ alerts (host (@handleZipUpload ex_empty_host (Some ex_empty_archive) ex_world))
    = alerts (host ex_world).
Proof.
  split; [reflexivity|]. split; [reflexivity|].
  exact (@C7_archive_without_json_entry_gives_no_notice ex_empty_host
           ex_empty_archive ∅ ex_world eq_refl eq_refl).
Defined.

(** * Further properties of the code *)

(** ** [formatTime] *)

Lemma floor_unique (x : Q) (k : Z) :
  inject_Z k <= x → x < inject_Z k + 1 → Qfloor x = k.
Proof.
  intros Hlo Hhi.
  pose proof (Qfloor_le x) as H1. pose proof (Qlt_floor x) as H2.
  rewrite inject_Z_plus in H2. change (inject_Z 1) with 1 in H2.
  assert (Qfloor x < k + 1)%Z as H3.
  { rewrite Zlt_Qlt, inject_Z_plus. change (inject_Z 1) with 1. num_lra. }
  assert (k < Qfloor x + 1)%Z as H4.
  { rewrite Zlt_Qlt, inject_Z_plus. change (inject_Z 1) with 1. num_lra. }
  lia.
Qed.

Lemma string_length_append (a b : string) :
  String.length (a +:+ b) = (String.length a + String.length b)%nat.
Proof. induction a as [|c a IH]; simpl; [done | by rewrite IH]. Qed.

Lemma padStart2_two_digits (z : Z) :
  (0 ≤ z < 100)%Z → String.length (padStart2 (int_toString z)) = 2%nat.
Proof.
  intros Hz.
  assert (forallb (λ n, Nat.eqb (String.length (padStart2 (int_toString (Z.of_nat n)))) 2)
                  (List.seq 0%nat 100%nat) = true) as Hall by (vm_compute; reflexivity).
  rewrite forallb_forall in Hall.
  specialize (Hall (Z.to_nat z)). rewrite Z2Nat.id in Hall by lia.
  apply Nat.eqb_eq, Hall, in_seq. lia.
Qed.

Lemma formatTime_parts (seconds : number) :
  0 <= seconds →
  Math_floor (seconds / 60) = (Qfloor seconds / 60)%Z
  ∧ Math_floor (js_rem seconds 60) = (Qfloor seconds mod 60)%Z.
Proof.
  intros Hpos. unfold Math_floor.
  set (m := Qfloor (seconds / 60)).
  pose proof (Qfloor_le (seconds / 60)) as Hlo.
  pose proof (Qlt_floor (seconds / 60)) as Hhi.
  rewrite inject_Z_plus in Hhi. change (inject_Z 1) with 1 in Hhi. fold m in Hlo, Hhi.
  assert (seconds / 60 * 60 == seconds) as Hd by field.
  pose proof (Qfloor_le seconds) as Hflo. pose proof (Qlt_floor seconds) as Hfhi.
  rewrite inject_Z_plus in Hfhi. change (inject_Z 1) with 1 in Hfhi.
  set (f := Qfloor seconds) in *.
  assert (0 ≤ m)%Z as Hm.
  { assert (-1 < m)%Z; [|lia]. rewrite Zlt_Qlt. change (inject_Z (-1)) with (-1).
    generalize dependent (seconds / 60). intros d **. num_lra. }
  assert (60 * m ≤ f < 60 * m + 60)%Z as Hf.
  { split.
    - assert (60 * m < f + 1)%Z; [|lia].
      rewrite Zlt_Qlt, inject_Z_plus, inject_Z_mult.
      change (inject_Z 1) with 1. change (inject_Z 60) with 60.
      generalize dependent (seconds / 60). intros d **. num_lra.
    - rewrite Zlt_Qlt, inject_Z_plus, inject_Z_mult.
      change (inject_Z 60) with 60.
      generalize dependent (seconds / 60). intros d **. num_lra. }
  assert (m = f / 60)%Z as Hdiv by (apply (Z.div_unique f 60 m (f - 60 * m)); lia).
  split; [done|].
  assert (trunc (seconds / 60) = m) as Htr.
  { unfold trunc. destruct (num_lt (seconds / 60) 0) eqn:E; [|done].
    apply num_lt_spec in E. exfalso.
    generalize dependent (seconds / 60). intros d **. num_lra. }
  unfold js_rem. rewrite Htr.
  rewrite (Z.mod_eq f 60) by lia. rewrite <- Hdiv.
  apply floor_unique.
  - unfold Zminus. rewrite inject_Z_plus, inject_Z_opp, inject_Z_mult.
    change (inject_Z 60) with 60. num_lra.
  - unfold Zminus. rewrite inject_Z_plus, inject_Z_opp, inject_Z_mult.
    change (inject_Z 60) with 60. num_lra.
Qed.


(** ** Pen capture *)

Lemma getNormalizedPos_same_rect (c1 c2 : option CanvasEl) (e : PointerEvent) :
  getBoundingClientRect <$> c1 = getBoundingClientRect <$> c2 →
  getNormalizedPos c1 e = getNormalizedPos c2 e.
Proof.
  destruct c1 as [c1|], c2 as [c2|]; simpl; intros Hr; try done.
  injection Hr as Hr. unfold getNormalizedPos. by rewrite Hr.
Qed.

Lemma renderCanvas_rect (drawings : list Drawing.t) (brushColor : string)
    (brushSize : number) (isDrawing : bool) (currentPath : list Point.t)
    (canvasRef : option CanvasEl) (videoRef : option VideoEl) :
  getBoundingClientRect
    <$> VideoPlayer.renderCanvas drawings brushColor brushSize isDrawing currentPath
          canvasRef videoRef
  = getBoundingClientRect <$> canvasRef.
Proof.
  unfold VideoPlayer.renderCanvas.
  destruct canvasRef as [canvas|], videoRef as [video|]; try done.
  by destruct (getContext2d canvas).
Qed.


Section PenGesture.
Variables (w : World) (video : VideoEl).
Hypothesis Hpen : toolMode (app w) = pen.
Hypothesis Hidle : activeClip (app w) = None.
Hypothesis Hvideo : videoRef (player w) = Some video.

Lemma handleStart_pen (answer : option string) (e : PointerEvent) :
  drawing_from w [pointAt (canvasRef (player w)) true e] (handleStart answer e w).
Proof.
  unfold handleStart. rewrite Hidle, Hvideo, Hpen. by repeat split.
Qed.

Lemma handleMove_pen (path : list Point.t) (e : PointerEvent) (w1 : World) :
  drawing_from w path w1 →
  drawing_from w (path ++ [pointAt (canvasRef (player w)) false e]) (handleMove e w1).
Proof.
  intros (Happ & Hhost & Hv & Hrect & Hdraw & Hpath).
  unfold handleMove. rewrite Hdraw, Happ, Hpen, Hidle. simpl.
  repeat split; try done.
  - simpl. by rewrite renderCanvas_rect.
  - simpl. rewrite Hpath. unfold pointAt.
    by rewrite (getNormalizedPos_same_rect _ _ e Hrect).
Qed.

Lemma handleMoves_pen (moves : list PointerEvent) :
  ∀ (path : list Point.t) (w1 : World),
    drawing_from w path w1 →
    drawing_from w (path ++ map (pointAt (canvasRef (player w)) false) moves)
      (fold_left (λ w e, handleMove e w) moves w1).
Proof.
  induction moves as [|e moves IH]; intros path w1 Hw1; simpl.
  - by rewrite app_nil_r.
  - rewrite (assoc_L (++) path [_] _ : path ++ _ :: _ = (path ++ [_]) ++ _).
    apply IH. by apply handleMove_pen.
Qed.

End PenGesture.

Lemma handleEnd_drawing (w : World) (video : VideoEl) (path : list Point.t) (w1 : World) :
  toolMode (app w) = pen →
  videoRef (player w) = Some video →
  drawing_from w path w1 →
  app (handleEnd w1)
  = (if Nat.ltb 1 (length path)
     then with_drawings (drawings (app w) ++
            [Drawing.mk (Date_now_toString w) (video_currentTime video)
                        (brushColor (app w)) (brushSize (app w)) path]) (app w)
     else app w)
  ∧ host (handleEnd w1) = host w
  ∧ isDrawing (player (handleEnd w1)) = false
  ∧ currentPath (player (handleEnd w1)) = [].
Proof.
  intros Hpen Hvideo (Happ & Hhost & Hv & _ & Hdraw & Hpath).
  unfold handleEnd. rewrite Hdraw, Happ, Hpen, Hv, Hvideo, Hpath. simpl.
  unfold Date_now_toString. rewrite Hhost.
  destruct (Nat.ltb 1 (length path)); simpl; rewrite ?Happ, ?Hhost; done.
Qed.

(** X2.  In pen mode, with no clip active and the video mounted, a press,
    any number of moves and a release commit exactly one drawing when
    there was at least one move: its path is the pressed point, flagged as
    a start, followed by the moved points, unflagged, in order, and it
    carries the video's time and the brush.  A press and release without
    a move commits nothing.  Either way the annotations, clips, notes and
    the host are untouched and the player is no longer drawing. *)
Theorem X2_pen_gesture_commits_one_drawing
    (w : World) (video : VideoEl) (e : PointerEvent) (moves : list PointerEvent) :
  toolMode (app w) = pen →
  activeClip (app w) = None →
  videoRef (player w) = Some video →
  let w' := penGesture e moves w in
  let path := pointAt (canvasRef (player w)) true e
                :: map (pointAt (canvasRef (player w)) false) moves in
  drawings (app w')
  = match moves with
    | [] => drawings (app w)
    | _ :: _ =>
        drawings (app w)
          ++ [Drawing.mk (Date_now_toString w) (video_currentTime video)
                         (brushColor (app w)) (brushSize (app w)) path]
    end
  ∧ annotations (app w') = annotations (app w)
  ∧ clips (app w') = clips (app w)
  ∧ notes (app w') = notes (app w)
  ∧ host w' = host w
  ∧ isDrawing (player w') = false
  ∧ currentPath (player w') = [].
Proof.
  intros Hpen Hidle Hvideo w' path. subst w'. unfold penGesture.
  pose proof (handleMoves_pen w Hpen Hidle moves _ _
                (handleStart_pen w video Hpen Hidle Hvideo None e)) as Hw1.
  destruct (handleEnd_drawing w video _ _ Hpen Hvideo Hw1) as (Happ & Hhost & Hd & Hp).
  change ([pointAt (canvasRef (player w)) true e]
            ++ map (pointAt (canvasRef (player w)) false) moves) with path in Happ.
  rewrite Happ. split; [|destruct moves; by repeat split].
  destruct moves; reflexivity.
Qed.

Lemma spec_segments_unflagged (canvas : CanvasEl) (ps : list Point.t) :
  ∀ p0 : Point.t,
    Forall (λ p, VideoPlayer.isStart_set p = false) ps →
    VideoPlayer.spec_segments canvas p0 ps
    = zip (map (VideoPlayer.scaled canvas) (p0 :: ps)) (map (VideoPlayer.scaled canvas) ps).
Proof.
  induction ps as [|p ps IH]; intros p0 Hall; [done|].
  apply Forall_cons in Hall as [Hp Hall]. simpl. rewrite Hp. simpl.
  f_equal. by apply IH.
Qed.



(** X5.  While a clip is active the overlay takes no capture: a press, in
    either mode and whatever the prompt would answer, and a move leave the
    world as it is. *)
Theorem X5_no_capture_while_a_clip_is_active
    (w : World) (clip : Clip.t) (answer : option string) (e : PointerEvent) :
  activeClip (app w) = Some clip →
  handleStart answer e w = w ∧ handleMove e w = w.
Proof.
  intros Hact. unfold handleStart, handleMove. rewrite Hact. split; [done|].
  rewrite bool_decide_eq_true_2 by (by eexists). by rewrite !orb_true_r.
Qed.

(** ** The clip state machine over the event loop *)

Section ClipLoop.
Context `{HostLib}.

Lemma step_active (ev : Event) (w : World) :
  timer_event ev = false → activeClipId (app (step ev w)) = activeClipId (app w).
Proof.
  intros Hev. destruct ev; try discriminate Hev; cbn [step]; clear Hev.
  all: unfold handleStart, handleMove, handleEnd, handleTimeUpdate, seekEffect,
         handleAddAnnotation, onClearAll, handleVideoUpload, handleZipUpload,
         saveAnalysis, loadFailed.
  all: repeat case_match; reflexivity.
Qed.

Lemma timers_stopClip (w : World) :
  timers_tracked w → timers (host (stopClip w)) = ∅.
Proof.
  intros Htr. change (timers (host (stopClip w))) with (tview (stopClip w)).1.2.
  rewrite tview_stopClip. by apply cancel_clears.
Qed.

Lemma sync_stopClip (w : World) : timers_tracked w → clip_sync (stopClip w).
Proof. intros Htr. split; intros _; [by apply timers_stopClip | done]. Qed.

Lemma sync_step (ev : Event) (w : World) :
  timers_tracked w → clip_sync w → clip_sync (step ev w).
Proof.
  intros Htr Hsync. destruct (timer_event ev) eqn:Hev.
  - destruct ev; try discriminate Hev; cbn [step].
    + destruct (timers_playClip clip w Htr) as [_ Ht].
      split; [done|]. rewrite Ht. intros Hempty.
      by apply map_non_empty_singleton in Hempty.
    + by apply sync_stopClip.
    + unfold onDeleteClip, seq. case_bool_decide; [|done].
      by apply (sync_stopClip w).
    + unfold fireTimer. case_match; [|done].
      by apply sync_stopClip, tracked_clearTimeout.
    + done.
  - unfold clip_sync. rewrite (step_active ev w Hev).
    change (timers (host (step ev w))) with (tview (step ev w)).1.2.
    by rewrite (step_tview ev w Hev).
Qed.

Lemma sync_run (evs : list Event) :
  ∀ w : World, timers_tracked w → clip_sync w → clip_sync (run evs w).
Proof.
  induction evs as [|ev evs IH]; intros w Htr Hsync; [done|].
  apply IH; [by apply tracked_step | by apply sync_step].
Qed.

Lemma tracked_single (w : World) (h : nat) (ms : number) :
  timers_tracked w → timers (host w) !! h = Some ms →
  clipTimeoutRef (app w) = Some h ∧ (0 < h)%nat ∧ timers (host w) = {[ h := ms ]}.
Proof.
  intros [_ Htr] Hh. simpl in Htr.
  destruct (Htr h (ltac:(by eexists))) as [Href [Hpos _]].
  split; [done|]. split; [done|]. apply map_eq. intros k.
  destruct (decide (k = h)) as [->|Hne].
  - by rewrite lookup_singleton_eq.
  - rewrite lookup_singleton_ne by done. apply eq_None_not_Some.
    intros [Hk _]%Htr. congruence.
Qed.

(** X6.  In every reachable state the clip state machine is in one of two
    states: idle, with no active clip and no pending stop timer, or
    active, with one active clip and exactly one pending stop timer, the
    one [clipTimeoutRef] holds. *)
Theorem X6_active_clip_iff_one_pending_timer (w : World) :
  reachable w →
  (activeClipId (app w) = None ∧ timers (host w) = ∅)
  ∨ ∃ (id : string) (h : nat) (ms : number),
      activeClipId (app w) = Some id
      ∧ clipTimeoutRef (app w) = Some h
      ∧ timers (host w) = {[ h := ms ]}.
Proof.
  intros Hreach. pose proof (tracked_reachable w Hreach) as Htr.
  assert (clip_sync w) as Hsync.
  { destruct Hreach as (now & evs & ->).
    apply sync_run; [apply tracked_empty; simpl; lia | done]. }
  destruct (activeClipId (app w)) as [id|] eqn:Hact.
  - right. destruct (map_choose (timers (host w))) as (h & ms & Hh).
    { intros Hempty. apply Hsync in Hempty. congruence. }
    destruct (tracked_single w h ms Htr Hh) as (Href & _ & Ht).
    by exists id, h, ms.
  - left. split; [done|]. by apply Hsync.
Qed.

Lemma cancel_after_clear (w : World) (h : nat) :
  clipTimeoutRef (app w) = Some h → (0 < h)%nat →
  cancelClipTimeout (clearTimeout h w) = cancelClipTimeout w.
Proof.
  intros Href Hpos. unfold cancelClipTimeout. cbn. rewrite Href. simpl.
  destruct (Nat.eqb_spec h 0) as [->|_]; [lia|]. simpl.
  unfold clearTimeout, upd_host. cbn. unfold with_timers. cbn.
  by rewrite delete_delete_eq.
Qed.

(** X7.  In every reachable state, the firing of the pending timer has
    exactly the effect of the stop button. *)
Theorem X7_timer_firing_is_stopClip (w : World) (h : nat) :
  reachable w →
  is_Some (timers (host w) !! h) →
  fireTimer h w = stopClip w.
Proof.
  intros Htr%tracked_reachable [ms Hh].
  destruct (tracked_single w h ms Htr Hh) as (Href & Hpos & _).
  unfold fireTimer. rewrite Hh. unfold stopClip, seq.
  by rewrite (cancel_after_clear w h Href Hpos).
Qed.

Lemma cancel_idempotent (w : World) :
  cancelClipTimeout (cancelClipTimeout w) = cancelClipTimeout w.
Proof.
  unfold cancelClipTimeout at 2 3. destruct (truthy_handle _) eqn:Htruthy.
  - destruct (clipTimeoutRef (app w)) as [h|] eqn:Href; [|done]. simpl.
    rewrite cancel_after_clear; [| done |].
    + unfold cancelClipTimeout. by rewrite Href, Htruthy.
    + simpl in Htruthy. destruct (Nat.eqb_spec h 0); [done | lia].
  - unfold cancelClipTimeout. by rewrite Htruthy.
Qed.

(** X8.  Stopping twice is stopping once: [stopClip] on a world that
    [stopClip] produced changes nothing. *)
Theorem X8_stopClip_is_idempotent (w : World) : stopClip (stopClip w) = stopClip w.
Proof.
  unfold stopClip, seq.
  set (rest := λ w0 : World, setPlaybackRate 1 (setIsPlaying false (setActiveClipId None w0))).
  change (rest (cancelClipTimeout (rest (cancelClipTimeout w))) = rest (cancelClipTimeout w)).
  assert (∀ w0, cancelClipTimeout (rest w0)
                = mkWorld (app (rest w0)) (player w0) (host (cancelClipTimeout w0))) as Hswap.
  { intros w0. unfold cancelClipTimeout. cbn. by case_match. }
  rewrite Hswap, cancel_idempotent. reflexivity.
Qed.

(** X9.  From any reachable state, pressing the button of a clip that is
    not playing starts it, and pressing it again stops it: no clip is
    active, no timer is pending, playback is paused and the rate is 1.0,
    whatever it was before the first press.  The clips are untouched. *)
Theorem X9_clip_button_toggles (w : World) (clip : Clip.t) :
  reachable w →
  activeClipId (app w) ≠ Some (Clip.id clip) →
  let w1 := clipButton clip w in
  let w2 := clipButton clip w1 in
  w1 = playClip clip w
  ∧ activeClipId (app w1) = Some (Clip.id clip)
  ∧ playbackRate (app w1) = Clip.speed clip
  ∧ w2 = stopClip w1
  ∧ activeClipId (app w2) = None
  ∧ timers (host w2) = ∅
  ∧ isPlaying (app w2) = false
  ∧ playbackRate (app w2) = 1
  ∧ clips (app w2) = clips (app w).
Proof.
  intros Htr%tracked_reachable Hne w1 w2.
  assert (w1 = playClip clip w) as Hw1.
  { subst w1. unfold clipButton. by rewrite bool_decide_eq_false_2. }
  assert (w2 = stopClip w1) as Hw2.
  { subst w2. unfold clipButton. rewrite Hw1. by rewrite bool_decide_eq_true_2. }
  split; [done|]. rewrite Hw2, Hw1. split; [done|]. split; [done|]. split; [done|].
  destruct (stopClip_idle (playClip clip w)) as (Ha & Hp & Hr & Hc).
  split; [done|]. split; [by apply timers_stopClip, tracked_playClip|].
  split; [done|]. split; [done|]. by rewrite Hc, clips_playClip.
Qed.

End ClipLoop.

(** ** Playing a clip: the video element *)

Lemma player_cancel (w : World) : player (cancelClipTimeout w) = player w.
Proof. unfold cancelClipTimeout. by case_match. Qed.

Lemma host_log_cancel (w : World) :
  alerts (host (cancelClipTimeout w)) = alerts (host w)
  ∧ consoleErrors (host (cancelClipTimeout w)) = consoleErrors (host w).
Proof. unfold cancelClipTimeout. by case_match. Qed.

Lemma playClip_requests (clip : Clip.t) (w : World) :
  player (playClip clip w) = player w
  ∧ activeClipId (app (playClip clip w)) = Some (Clip.id clip)
  ∧ seekTimestamp (app (playClip clip w)) = Some (Clip.startTime clip)
  ∧ isPlaying (app (playClip clip w)) = true
  ∧ playbackRate (app (playClip clip w)) = Clip.speed clip
  ∧ alerts (host (playClip clip w)) = alerts (host w)
  ∧ consoleErrors (host (playClip clip w)) = consoleErrors (host w).
Proof.
  destruct (host_log_cancel w) as [Ha Hc].
  unfold playClip, seq. cbn. by rewrite player_cancel, Ha, Hc.
Qed.

(** The world after the seek request of [playClip] has been served. *)
Lemma seekEffect_playClip (clip : Clip.t) (w : World) (video : VideoEl) :
  videoRef (player w) = Some video →
  seekEffect (playClip clip w)
  = upd_player (λ p,
      mkPlayer (Some (mkVideo (Clip.startTime clip) (video_duration video)
                              (video_paused video) (video_ended video)
                              (video_playbackRate video)))
               (canvasRef p) (isDrawing p) (currentPath p))
      (setSeekTimestamp None (playClip clip w)).
Proof.
  intros Hvideo. destruct (playClip_requests clip w) as (Hp & _ & Hs & _).
  revert Hp Hs. generalize (playClip clip w). intros wp Hp Hs.
  unfold seekEffect. rewrite Hs, Hp, Hvideo. reflexivity.
Qed.

(** X10.  With the video mounted, the seek request that [playClip] leaves
    is served once: the effect moves the element to the clip's start and
    clears the request, and a second run of the effect changes nothing. *)
Theorem X10_seek_request_is_served_once (w : World) (clip : Clip.t) (video : VideoEl) :
  videoRef (player w) = Some video →
  let w1 := seekEffect (playClip clip w) in
  videoRef (player w1)
  = Some (mkVideo (Clip.startTime clip) (video_duration video) (video_paused video)
                  (video_ended video) (video_playbackRate video))
  ∧ seekTimestamp (app w1) = None
  ∧ activeClipId (app w1) = Some (Clip.id clip)
  ∧ seekEffect w1 = w1.
Proof.
  intros Hvideo w1. subst w1. rewrite (seekEffect_playClip clip w video Hvideo).
  repeat split.
Qed.

(** X11.  With the video mounted, after [playClip] and the three effects
    of the player (seek, play state, playback rate), with [play()]
    accepted by the host, the element is at the clip's start, playing, at
    the clip's speed; nothing is logged and nothing is alerted. *)
Theorem X11_element_follows_playClip (w : World) (clip : Clip.t) (video : VideoEl) :
  videoRef (player w) = Some video →
  let w' := playbackRateEffect (playStateEffect true (seekEffect (playClip clip w))) in
  videoRef (player w')
  = Some (mkVideo (Clip.startTime clip) (video_duration video) false
                  (video_ended video) (Clip.speed clip))
  ∧ consoleErrors (host w') = consoleErrors (host w)
  ∧ alerts (host w') = alerts (host w).
Proof.
  intros Hvideo w'. subst w'. rewrite (seekEffect_playClip clip w video Hvideo).
  destruct (playClip_requests clip w) as (_ & _ & _ & Hplay & Hrate & Ha & Hc).
  revert Hplay Hrate Ha Hc. generalize (playClip clip w). intros wp Hplay Hrate Ha Hc.
  unfold playStateEffect. cbn. rewrite Hplay. simpl.
  destruct (video_paused video) eqn:Hpaused; cbn; rewrite ?Hrate, ?Ha, ?Hc;
    repeat split; congruence.
Qed.

(** X12.  When the host rejects [play()] on a paused element, the element
    stays paused and one line goes to the console; no alert is shown, and
    the application still holds the clip as active and playing, with its
    stop timer pending. *)
Theorem X12_rejected_play_is_logged_and_not_corrected
    (w : World) (clip : Clip.t) (video : VideoEl) :
  videoRef (player w) = Some video →
  video_paused video = true →
  let w' := playbackRateEffect (playStateEffect false (seekEffect (playClip clip w))) in
  (video_paused <$> videoRef (player w')) = Some true
  ∧ consoleErrors (host w') = consoleErrors (host w) ++ ["Play error"]
  ∧ alerts (host w') = alerts (host w)
  ∧ isPlaying (app w') = true
  ∧ activeClipId (app w') = Some (Clip.id clip)
  ∧ timers (host w') = timers (host (playClip clip w))
  ∧ timers (host (playClip clip w)) !! nextTimer (host w) = Some (durationMs clip).
Proof.
  intros Hvideo Hpaused w'. subst w'. rewrite (seekEffect_playClip clip w video Hvideo).
  assert (timers (host (playClip clip w)) !! nextTimer (host w) = Some (durationMs clip))
    as Htimer.
  { change (timers (host (playClip clip w))) with (tview (playClip clip w)).1.2.
    rewrite tview_playClip. simpl. apply lookup_insert_eq. }
  destruct (playClip_requests clip w) as (_ & Hact & _ & Hplay & Hrate & Ha & Hc).
  revert Htimer Hact Hplay Hrate Ha Hc. generalize (playClip clip w).
  intros wp Htimer Hact Hplay Hrate Ha Hc.
  unfold playStateEffect. cbn. rewrite Hplay, Hpaused. cbn. rewrite Hc.
  repeat split; done.
Qed.

(** ** Captured clips *)

Lemma toFixed2_nonneg (x : number) : 0 <= x → 0 <= parseFloat (toFixed2 x).
Proof.
  intros Hx. destruct (toFixed2_cases x) as (n & [Hlo Hhi] & Hsign).
  pose proof (parseFloat_scale (toFixed2 x)) as Hs.
  destruct Hsign as [(Hneg & _) | (_ & Ha & Hn)]; [num_lra|].
  rewrite Ha in Hlo, Hhi. rewrite Hn in Hs |- *.
  assert (-1 < n)%Z as Hn1.
  { rewrite Zlt_Qlt. change (inject_Z (-1)) with (-1). num_lra. }
  assert (0 <= inject_Z n) as Hn0.
  { change 0 with (inject_Z 0). rewrite <- Zle_Qle. lia. }
  num_lra.
Qed.


Lemma N_to_uint_nonnil (n : N) : N.to_uint n ≠ Decimal.Nil.
Proof. destruct n as [|p]; [done|]. apply DecimalPos.Unsigned.to_uint_nonnil. Qed.

Lemma Date_now_toString_inj (w1 w2 : World) :
  Date_now_toString w1 = Date_now_toString w2 → Date_now (host w1) = Date_now (host w2).
Proof.
  unfold Date_now_toString. intros Heq.
  apply (f_equal NilZero.uint_of_string) in Heq.
  rewrite !NilZero.usu in Heq by apply N_to_uint_nonnil.
  injection Heq as Heq. by apply Unsigned.to_uint_inj.
Qed.

Section Ids.
Context `{HostLib}.

(** X14.  Two labelled captures separated by a clock tick of [dt]
    milliseconds append two annotations and two clips, each annotation
    sharing its id with its clip; the two ids are the same if and only if
    the clock did not advance. *)
Theorem X14_capture_ids_differ_iff_clock_advanced
    (w : World) (l1 l2 : string) (x1 y1 T1 x2 y2 T2 : number) (dt : N) :
  l1 ≠ "" → l2 ≠ "" →
  let w1 := handleAddAnnotation (Some l1) x1 y1 T1 w in
  let w2 := handleAddAnnotation (Some l2) x2 y2 T2 (step (ClockTick dt) w1) in
  ∃ (a1 a2 : Annotation.t) (c1 c2 : Clip.t),
    annotations (app w2) = annotations (app w) ++ [a1; a2]
    ∧ clips (app w2) = clips (app w) ++ [c1; c2]
    ∧ Annotation.id a1 = Clip.id c1
    ∧ Annotation.id a2 = Clip.id c2
    ∧ (Clip.id c1 = Clip.id c2 ↔ dt = 0%N).
Proof.
  intros H1 H2 w1 w2. subst w2 w1.
  rewrite (handleAddAnnotation_labelled l2) by done.
  rewrite (handleAddAnnotation_labelled l1) by done.
  eexists _, _, _, _. split; [cbn; by rewrite <- app_assoc|].
  split; [cbn; by rewrite <- app_assoc|]. split; [done|]. split; [done|].
  cbn [Clip.id]. split.
  - intros Heq%Date_now_toString_inj. cbn in Heq. lia.
  - intros ->. unfold Date_now_toString. cbn. by rewrite N.add_0_r.
Qed.

End Ids.

Lemma find_last_by_id (l : list Clip.t) (c : Clip.t) :
  (∀ c0, c0 ∈ l → Clip.id c0 ≠ Clip.id c) →
  List.find (λ c0, String.eqb (Clip.id c0) (Clip.id c)) (l ++ [c]) = Some c.
Proof.
  induction l as [|c0 l IH]; intros Hfresh; simpl.
  - by rewrite String.eqb_refl.
  - destruct (String.eqb_spec (Clip.id c0) (Clip.id c)) as [Heq|_].
    + exfalso. apply (Hfresh c0); [by left | done].
    + apply IH. intros c1 Hc1. apply Hfresh. by right.
Qed.

Lemma activeClip_playClip_last (w1 : World) (l : list Clip.t) (c : Clip.t) :
  clips (app w1) = l ++ [c] →
  (∀ c0, c0 ∈ l → Clip.id c0 ≠ Clip.id c) →
  activeClip (app (playClip c w1)) = Some c.
Proof.
  intros Hclips Hfresh. unfold activeClip.
  destruct (playClip_requests c w1) as (_ & Hid & _).
  rewrite Hid, clips_playClip, Hclips. by apply find_last_by_id.
Qed.

(** X15.  When no clip has the id the clock gives, the clip of a labelled
    capture, once played, is the clip the player zooms on, at scale 2
    about the very point where the annotation's marker is placed. *)
Theorem X15_zoom_is_centred_on_the_marker
    (w : World) (label : string) (x y T : number) :
  label ≠ "" →
  (∀ c0, c0 ∈ clips (app w) → Clip.id c0 ≠ Date_now_toString w) →
  let w1 := handleAddAnnotation (Some label) x y T w in
  ∃ (a : Annotation.t) (c : Clip.t),
    annotations (app w1) = annotations (app w) ++ [a]
    ∧ clips (app w1) = clips (app w) ++ [c]
    ∧ activeClip (app (playClip c w1)) = Some c
    ∧ VideoPlayer.transformStyle (activeClip (app (playClip c w1)))
      = VideoPlayer.mkTransform 2
          (Some (VideoPlayer.left_percent (VideoPlayer.markerOf a),
                 VideoPlayer.top_percent (VideoPlayer.markerOf a))).
Proof.
  intros Hne Hfresh w1. subst w1. rewrite handleAddAnnotation_labelled by done.
  eexists _, _. split; [reflexivity|]. split; [reflexivity|].
  match goal with |- activeClip (app (playClip ?c ?w1)) = _ ∧ _ =>
    assert (activeClip (app (playClip c w1)) = Some c) as Hact
  end.
  { apply (activeClip_playClip_last _ (clips (app w))); [reflexivity | exact Hfresh]. }
  split; [exact Hact|]. rewrite Hact. reflexivity.
Qed.

(** X19.  Deleting an annotation removes the annotations with that id,
    keeps the others in order, and changes nothing else; in particular
    the companion clip of a capture survives the deletion of its
    annotation. *)
Theorem X19_deleting_an_annotation_keeps_its_clip
    (w : World) (label : string) (x y T : number) :
  label ≠ "" →
  (∀ (id : string) (w0 : World),
     onDeleteAnnotation id w0
     = mkWorld (with_annotations (filter (λ a, Annotation.id a ≠ id) (annotations (app w0)))
                                 (app w0))
               (player w0) (host w0))
  ∧ let w1 := handleAddAnnotation (Some label) x y T w in
    let w2 := onDeleteAnnotation (Date_now_toString w) w1 in
    annotations (app w2)
    = filter (λ a, Annotation.id a ≠ Date_now_toString w) (annotations (app w))
    ∧ ∃ c : Clip.t,
        clips (app w2) = clips (app w) ++ [c]
        ∧ Clip.id c = Date_now_toString w
        ∧ Clip.name c = label.
Proof.
  intros Hne. split; [done|]. intros w1 w2. subst w2 w1.
  rewrite handleAddAnnotation_labelled by done. split.
  - cbn. rewrite filter_app, filter_cons_False; [|by intros Hid; apply Hid].
    by rewrite filter_nil, app_nil_r.
  - eexists. repeat split.
Qed.

(** ** The archive *)

Lemma replace_colon_dot_chars (s : string) :
  String.length (replace_colon_dot s) = String.length s
  ∧ ∀ c : ascii, In c (String.list_ascii_of_string (replace_colon_dot s)) →
                 c ≠ ":"%char ∧ c ≠ "."%char.
Proof.
  induction s as [|c0 s [IHlen IHin]]; simpl; [by split|].
  split; [by rewrite IHlen|]. intros c [<-|Hin]; [|by apply IHin].
  destruct (Ascii.eqb_spec c0 ":") as [->|H1]; simpl; [by split|].
  destruct (Ascii.eqb_spec c0 ".") as [->|H2]; simpl; [by split | by split].
Qed.

Section ArchiveExport.
Context `{HostLib}.

(** X16.  Without a video file [saveAnalysis] does nothing.  With one it
    hands exactly one file to [saveAs] and changes nothing else: the
    content is the archive of the two entries, and the name is
    [Analysis_], the ISO time stamp with every colon and dot replaced (so
    that the stamp has its length and neither character), and [.zip]. *)
Theorem X16_saveAnalysis_writes_one_file (w : World) :
  match videoFile (app w) with
  | None => saveAnalysis w = w
  | Some f =>
      ∃ stamp : string,
        saveAnalysis w
        = mkWorld (app w) (player w)
            (with_downloads
               (downloads (host w)
                  ++ [File.mk ("Analysis_" +:+ stamp +:+ ".zip")
                              (JSZip_generateAsync (archiveEntries (app w) f))])
               (host w))
        ∧ String.length stamp
          = String.length (Date_toISOString (Date_now (host w)))
        ∧ ∀ c : ascii, In c (String.list_ascii_of_string stamp) →
                       c ≠ ":"%char ∧ c ≠ "."%char
  end.
Proof.
  unfold saveAnalysis. destruct (videoFile (app w)) as [f|]; [|done].
  exists (replace_colon_dot (Date_toISOString (Date_now (host w)))).
  split; [done|]. apply replace_colon_dot_chars.
Qed.

(** X17.  The archive holds the video under its name (or [video.mp4]) and
    nothing besides the two entries.  When that name is not
    [analysis_data.json] it holds both entries; when the video is itself
    named [analysis_data.json] the second write replaces the first and
    the archive holds the video alone, without the analysis. *)
Theorem X17_archive_entries (s : App) (f : File.t) :
  let name := or_default (videoFileName s) default_video_name in
  archiveEntries s f !! name = Some (File.bytes f)
  ∧ (∀ k : string, k ≠ name → k ≠ analysis_entry → archiveEntries s f !! k = None)
  ∧ (name ≠ analysis_entry →
     archiveEntries s f !! analysis_entry
     = Some (String.list_byte_of_string (JSON_stringify (snapshot s)))
     ∧ size (archiveEntries s f) = 2%nat)
  ∧ (name = analysis_entry →
     archiveEntries s f = {[ analysis_entry := File.bytes f ]}).
Proof.
  intros name. subst name. unfold archiveEntries.
  set (name := or_default (videoFileName s) default_video_name).
  split; [apply lookup_insert_eq|]. split.
  - intros k Hk1 Hk2. by rewrite !lookup_insert_ne, lookup_empty.
  - split.
    + intros Hne. split; [rewrite lookup_insert_ne by done; apply lookup_insert_eq|].
      rewrite map_size_insert_None.
      * by rewrite map_size_insert_None, map_size_empty.
      * by rewrite lookup_insert_ne, lookup_empty.
    + intros ->. by rewrite insert_insert_eq, insert_empty.
Qed.

(** X18.  An archive whose JSON entry parses and names no video (the
    field is absent or empty) is imported as it is: the notes and the
    three collections are those of the archive, the loaded video, the
    player and the host are untouched, and no notice is shown. *)
Theorem X18_import_without_video_name_applies_the_analysis
    (file : File.t) (zip : gmap string (list byte)) (jsonFile : list byte)
    (data : AnalysisData.t) (w : World) :
  JSZip_loadAsync (File.bytes file) = Some zip →
  zip !! analysis_entry = Some jsonFile →
  JSON_parse (String.string_of_list_byte jsonFile) = Some data →
  AnalysisData.primaryVideoFileName data = None
    ∨ AnalysisData.primaryVideoFileName data = Some "" →
  let w' := handleZipUpload (Some file) w in
  notes (app w') = AnalysisData.notes data
  ∧ drawings (app w') = AnalysisData.drawings data
  ∧ annotations (app w') = AnalysisData.annotations data
  ∧ clips (app w') = AnalysisData.clips data
  ∧ videoSrc (app w') = videoSrc (app w)
  ∧ videoFile (app w') = videoFile (app w)
  ∧ videoFileName (app w') = videoFileName (app w)
  ∧ player w' = player w
  ∧ host w' = host w.
Proof.
  intros Hzip Hjson Hparse Hname%truthy_str_false w'. subst w'.
  unfold handleZipUpload. rewrite Hzip, Hjson, Hparse, Hname. by repeat split.
Qed.

(** X20.  An import that fails, because the file is not an archive or
    because the JSON entry does not parse, leaves the application and the
    player as they were and is reported once: one alert with the failure
    text and one console line. *)
Theorem X20_failed_import_changes_nothing_and_alerts_once
    (file : File.t) (w : World) :
  JSZip_loadAsync (File.bytes file) = None
    ∨ (∃ (zip : gmap string (list byte)) (jsonFile : list byte),
         JSZip_loadAsync (File.bytes file) = Some zip
         ∧ zip !! analysis_entry = Some jsonFile
         ∧ JSON_parse (String.string_of_list_byte jsonFile) = None) →
  let w' := handleZipUpload (Some file) w in
  app w' = app w
  ∧ player w' = player w
  ∧ alerts (host w') = alerts (host w) ++ ["Failed to load analysis file."]
  ∧ length (consoleErrors (host w')) = S (length (consoleErrors (host w)))
  ∧ timers (host w') = timers (host w)
  ∧ downloads (host w') = downloads (host w).
Proof.
  intros Hfail w'. subst w'. unfold handleZipUpload.
  destruct Hfail as [Hzip | (zip & jsonFile & Hzip & Hjson & Hparse)].
  - rewrite Hzip. cbn. rewrite length_app. simpl. repeat split; lia.
  - rewrite Hzip, Hjson, Hparse. cbn. rewrite length_app. simpl. repeat split; lia.
Qed.

(** X21.  An archive whose JSON entry parses and names a video that the
    archive does not hold is imported without the video: the notes and
    the three collections are those of the archive, the loaded video and
    the player are untouched, and one alert, different from the failure
    text, says that the video was missing; nothing goes to the console. *)
Theorem X21_import_with_missing_video_applies_the_analysis
    (file : File.t) (zip : gmap string (list byte)) (jsonFile : list byte)
    (data : AnalysisData.t) (name : string) (w : World) :
  JSZip_loadAsync (File.bytes file) = Some zip →
  zip !! analysis_entry = Some jsonFile →
  JSON_parse (String.string_of_list_byte jsonFile) = Some data →
  AnalysisData.primaryVideoFileName data = Some name →
  name ≠ "" →
  zip !! name = None →
  let w' := handleZipUpload (Some file) w in
  notes (app w') = AnalysisData.notes data
  ∧ drawings (app w') = AnalysisData.drawings data
  ∧ annotations (app w') = AnalysisData.annotations data
  ∧ clips (app w') = AnalysisData.clips data
  ∧ videoSrc (app w') = videoSrc (app w)
  ∧ videoFile (app w') = videoFile (app w)
  ∧ videoFileName (app w') = videoFileName (app w)
  ∧ player w' = player w
  ∧ alerts (host w')
    = alerts (host w) ++ ["Analysis loaded, but the video file was missing in the archive."]
  ∧ consoleErrors (host w') = consoleErrors (host w).
Proof.
  intros Hzip Hjson Hparse Hname Hne Hvideo w'. subst w'. unfold handleZipUpload.
  rewrite Hzip, Hjson, Hparse, Hname, (truthy_str_nonempty _ Hne). simpl.
  rewrite Hvideo. by repeat split.
Qed.

End ArchiveExport.

Section Session.
Context `{HostLib}.

Lemma handleTimeUpdate_mounted (w : World) (video : VideoEl) :
  videoRef (player w) = Some video →
  handleTimeUpdate w
  = repaint (onVideoTimeUpdate (video_currentTime video) (video_duration video) w).
Proof. intros Hv. unfold handleTimeUpdate. by rewrite Hv. Qed.

(** X22.  After a time update of the mounted video, a labelled press in
    point mode on the idle player creates a clip that starts at the
    video's time and ends at the smaller of that time plus 2 and the
    duration of the video element itself. *)
Theorem X22_capture_after_time_update_is_clamped_to_the_video
    (w : World) (video : VideoEl) (label : string) (e : PointerEvent) :
  videoRef (player w) = Some video →
  toolMode (app w) = point →
  activeClip (app w) = None →
  label ≠ "" →
  let w' := handleStart (Some label) e (handleTimeUpdate w) in
  ∃ c : Clip.t,
    clips (app w') = clips (app w) ++ [c]
    ∧ Clip.startTime c = video_currentTime video
    ∧ Clip.endTime c = Qmin (video_currentTime video + 2) (video_duration video)
    ∧ (Clip.x c, Clip.y c) = getNormalizedPos (canvasRef (player w)) e.
Proof.
  intros Hv Hmode Hidle Hne w'. subst w'.
  rewrite (handleTimeUpdate_mounted w video Hv).
  set (w1 := repaint _).
  assert (getNormalizedPos (canvasRef (player w1)) e
          = getNormalizedPos (canvasRef (player w)) e) as Hpos.
  { apply getNormalizedPos_same_rect. subst w1. cbn. apply renderCanvas_rect. }
  rewrite (handleStart_point (Some label) e w1 video); [|done|done|done].
  rewrite handleAddAnnotation_labelled by done. rewrite Hpos.
  eexists. split; [reflexivity|]. cbn [Clip.startTime Clip.endTime Clip.x Clip.y].
  split; [reflexivity|]. split; [reflexivity|].
  symmetry. apply surjective_pairing.
Qed.


Lemma app_clearTimeout (h : nat) (w : World) : app (clearTimeout h w) = app w.
Proof. done. Qed.

Lemma clips_stopClip (w : World) : clips (app (stopClip w)) = clips (app w).
Proof. by destruct (stopClip_idle w) as (_ & _ & _ & Hc). Qed.

Lemma Forall_filter_keeps {A : Type} (P Q : A → Prop) `{∀ x, Decision (Q x)} (l : list A) :
  Forall P l → Forall P (filter Q l).
Proof.
  rewrite !Forall_forall. intros Hall x [_ Hx]%list_elem_of_filter. by apply Hall.
Qed.

Lemma clips_setClips (f : list Clip.t → list Clip.t) (w : World) :
  clips (app (setClips f w)) = f (clips (app w)).
Proof. done. Qed.

Lemma step_keeps_captured_clips (ev : Event) (w : World) :
  is_import ev = false →
  Forall captured_clip (clips (app w)) →
  Forall captured_clip (clips (app (step ev w))).
Proof.
  intros Hev Hall. destruct ev; try discriminate Hev; cbn [step]; clear Hev.
  - unfold handleStart. repeat case_match; try done.
    unfold handleAddAnnotation. destruct (truthy_str answer) eqn:Hans; [|done].
    cbn. apply Forall_app. split; [done|]. apply Forall_singleton.
    split; [done|]. split; [|done]. cbn.
    destruct answer as [s|]; [|done]. simpl in Hans |- *.
    apply negb_true_iff in Hans. by apply String.eqb_neq.
  - unfold handleMove. by repeat case_match.
  - unfold handleEnd. by repeat case_match.
  - unfold handleTimeUpdate. by repeat case_match.
  - done.
  - done.
  - done.
  - done.
  - done.
  - unfold onClearAll. by case_match.
  - by case_match.
  - done.
  - by rewrite clips_playClip.
  - by rewrite clips_stopClip.
  - unfold onDeleteClip, seq. case_bool_decide; rewrite clips_setClips.
    + rewrite clips_stopClip. by apply Forall_filter_keeps.
    + by apply Forall_filter_keeps.
  - done.
  - unfold saveAnalysis. by case_match.
  - unfold handleVideoUpload. by case_match.
  - unfold seekEffect. by repeat case_match.
  - done.
  - unfold fireTimer, seq. case_match; [|done]. by rewrite clips_stopClip.
  - done.
  - done.
Qed.


End Session.

(** * The further properties at concrete inputs *)


Lemma X2_witness :
  toolMode (app ex_pen_world) = pen
  ∧ activeClip (app ex_pen_world) = None
  ∧ videoRef (player ex_pen_world) = Some (ex_video 2)
  ∧ let w' := penGesture (mkPointer 320 90) ex_moves ex_pen_world in
    let path := pointAt (canvasRef (player ex_pen_world)) true (mkPointer 320 90)
                  :: map (pointAt (canvasRef (player ex_pen_world)) false) ex_moves in
    drawings (app w')
    = match ex_moves with
      | [] => drawings (app ex_pen_world)
      | _ :: _ =>
          drawings (app ex_pen_world)
            ++ [Drawing.mk (Date_now_toString ex_pen_world) (video_currentTime (ex_video 2))
                           (brushColor (app ex_pen_world)) (brushSize (app ex_pen_world)) path]
      end
    ∧ annotations (app w') = annotations (app ex_pen_world)
    ∧ clips (app w') = clips (app ex_pen_world)
    ∧ notes (app w') = notes (app ex_pen_world)
    ∧ host w' = host ex_pen_world
    ∧ isDrawing (player w') = false
    ∧ currentPath (player w') = [].
Proof.
  assert (toolMode (app ex_pen_world) = pen) as Hpen by (vm_compute; reflexivity).
  assert (activeClip (app ex_pen_world) = None) as Hidle by (vm_compute; reflexivity).
  assert (videoRef (player ex_pen_world) = Some (ex_video 2)) as Hv
    by (vm_compute; reflexivity).
  split; [exact Hpen|]. split; [exact Hidle|]. split; [exact Hv|].
  exact (X2_pen_gesture_commits_one_drawing ex_pen_world (ex_video 2) (mkPointer 320 90)
           ex_moves Hpen Hidle Hv).
Defined.



Lemma X5_witness :
  activeClip (app ex_playing) = Some ex_clipB
  ∧ handleStart (Some "Point 3") (mkPointer 320 90) ex_playing = ex_playing
  ∧ handleMove (mkPointer 320 90) ex_playing = ex_playing.
Proof.
  assert (activeClip (app ex_playing) = Some ex_clipB) as Hact by (vm_compute; reflexivity).
  split; [exact Hact|].
  exact (X5_no_capture_while_a_clip_is_active ex_playing ex_clipB (Some "Point 3")
           (mkPointer 320 90) Hact).
Defined.

Lemma X6_witness :
  @reachable idle_host ex_playing
  ∧ ((activeClipId (app ex_playing) = None ∧ timers (host ex_playing) = ∅)
     ∨ ∃ (id : string) (h : nat) (ms : number),
         activeClipId (app ex_playing) = Some id
         ∧ clipTimeoutRef (app ex_playing) = Some h
         ∧ timers (host ex_playing) = {[ h := ms ]}).
Proof.
  assert (@reachable idle_host ex_playing) as Hreach.
  { exists ex_now, (ex_events ++ [PlayClip ex_clipB]). reflexivity. }
  split; [exact Hreach|].
  exact (@X6_active_clip_iff_one_pending_timer idle_host ex_playing Hreach).
Defined.

Lemma X7_witness :
  @reachable idle_host ex_playing
  ∧ is_Some (timers (host ex_playing) !! 1%nat)
  ∧ fireTimer 1 ex_playing = stopClip ex_playing.
Proof.
  assert (@reachable idle_host ex_playing) as Hreach.
  { exists ex_now, (ex_events ++ [PlayClip ex_clipB]). reflexivity. }
  assert (is_Some (timers (host ex_playing) !! 1%nat)) as Hpending.
  { exists (durationMs ex_clipB). vm_compute. reflexivity. }
  split; [exact Hreach|]. split; [exact Hpending|].
  exact (@X7_timer_firing_is_stopClip idle_host ex_playing 1%nat Hreach Hpending).
Defined.

Lemma X9_witness :
  @reachable idle_host ex_world
  ∧ activeClipId (app ex_world) ≠ Some (Clip.id ex_clipA)
  ∧ let w1 := clipButton ex_clipA ex_world in
    let w2 := clipButton ex_clipA w1 in
    w1 = playClip ex_clipA ex_world
    ∧ activeClipId (app w1) = Some (Clip.id ex_clipA)
    ∧ playbackRate (app w1) = Clip.speed ex_clipA
    ∧ w2 = stopClip w1
    ∧ activeClipId (app w2) = None
    ∧ timers (host w2) = ∅
    ∧ isPlaying (app w2) = false
    ∧ playbackRate (app w2) = 1
    ∧ clips (app w2) = clips (app ex_world).
Proof.
  assert (@reachable idle_host ex_world) as Hreach.
  { exists ex_now, ex_events. reflexivity. }
  assert (activeClipId (app ex_world) ≠ Some (Clip.id ex_clipA)) as Hne.
  { vm_compute. discriminate. }
  split; [exact Hreach|]. split; [exact Hne|].
  exact (@X9_clip_button_toggles idle_host ex_world ex_clipA Hreach Hne).
Defined.

Lemma X10_witness :
  videoRef (player ex_world) = Some (ex_video 2)
  ∧ let w1 := seekEffect (playClip ex_clipB ex_world) in
    videoRef (player w1)
    = Some (mkVideo (Clip.startTime ex_clipB) (video_duration (ex_video 2))
                    (video_paused (ex_video 2)) (video_ended (ex_video 2))
                    (video_playbackRate (ex_video 2)))
    ∧ seekTimestamp (app w1) = None
    ∧ activeClipId (app w1) = Some (Clip.id ex_clipB)
    ∧ seekEffect w1 = w1.
Proof.
  assert (videoRef (player ex_world) = Some (ex_video 2)) as Hv by (vm_compute; reflexivity).
  split; [exact Hv|].
  exact (X10_seek_request_is_served_once ex_world ex_clipB (ex_video 2) Hv).
Defined.

Lemma X11_witness :
  videoRef (player ex_world) = Some (ex_video 2)
  ∧ let w' := playbackRateEffect
                (playStateEffect true (seekEffect (playClip ex_clipB ex_world))) in
    videoRef (player w')
    = Some (mkVideo (Clip.startTime ex_clipB) (video_duration (ex_video 2)) false
                    (video_ended (ex_video 2)) (Clip.speed ex_clipB))
    ∧ consoleErrors (host w') = consoleErrors (host ex_world)
    ∧ alerts (host w') = alerts (host ex_world).
Proof.
  assert (videoRef (player ex_world) = Some (ex_video 2)) as Hv by (vm_compute; reflexivity).
  split; [exact Hv|].
  exact (X11_element_follows_playClip ex_world ex_clipB (ex_video 2) Hv).
Defined.

Lemma X12_witness :
  videoRef (player ex_world) = Some (ex_video 2)
  ∧ video_paused (ex_video 2) = true
  ∧ let w' := playbackRateEffect
                (playStateEffect false (seekEffect (playClip ex_clipB ex_world))) in
    (video_paused <$> videoRef (player w')) = Some true
    ∧ consoleErrors (host w') = consoleErrors (host ex_world) ++ ["Play error"]
    ∧ alerts (host w') = alerts (host ex_world)
    ∧ isPlaying (app w') = true
    ∧ activeClipId (app w') = Some (Clip.id ex_clipB)
    ∧ timers (host w') = timers (host (playClip ex_clipB ex_world))
    ∧ timers (host (playClip ex_clipB ex_world)) !! nextTimer (host ex_world)
      = Some (durationMs ex_clipB).
Proof.
  assert (videoRef (player ex_world) = Some (ex_video 2)) as Hv by (vm_compute; reflexivity).
  split; [exact Hv|]. split; [reflexivity|].
  exact (X12_rejected_play_is_logged_and_not_corrected ex_world ex_clipB (ex_video 2)
           Hv eq_refl).
Defined.


Lemma X14_witness :
  "Point 3" ≠ "" ∧ "Point 4" ≠ ""
  ∧ let w1 := handleAddAnnotation (Some "Point 3") (1 # 2) (1 # 2) 3 ex_world in
    let w2 := handleAddAnnotation (Some "Point 4") (1 # 4) (1 # 4) 4
                (@step idle_host (ClockTick 7) w1) in
    ∃ (a1 a2 : Annotation.t) (c1 c2 : Clip.t),
      annotations (app w2) = annotations (app ex_world) ++ [a1; a2]
      ∧ clips (app w2) = clips (app ex_world) ++ [c1; c2]
      ∧ Annotation.id a1 = Clip.id c1
      ∧ Annotation.id a2 = Clip.id c2
      ∧ (Clip.id c1 = Clip.id c2 ↔ 7%N = 0%N).
Proof.
  split; [discriminate|]. split; [discriminate|].
  apply (@X14_capture_ids_differ_iff_clock_advanced idle_host ex_world "Point 3" "Point 4"
           (1 # 2) (1 # 2) 3 (1 # 4) (1 # 4) 4 7%N); discriminate.
Defined.

Lemma X15_witness :
  "Point 3" ≠ ""
  ∧ (∀ c0, c0 ∈ clips (app ex_later) → Clip.id c0 ≠ Date_now_toString ex_later)
  ∧ let w1 := handleAddAnnotation (Some "Point 3") (1 # 2) (1 # 4) 3 ex_later in
    ∃ (a : Annotation.t) (c : Clip.t),
      annotations (app w1) = annotations (app ex_later) ++ [a]
      ∧ clips (app w1) = clips (app ex_later) ++ [c]
      ∧ activeClip (app (playClip c w1)) = Some c
      ∧ VideoPlayer.transformStyle (activeClip (app (playClip c w1)))
        = VideoPlayer.mkTransform 2
            (Some (VideoPlayer.left_percent (VideoPlayer.markerOf a),
                   VideoPlayer.top_percent (VideoPlayer.markerOf a))).
Proof.
  assert (∀ c0, c0 ∈ clips (app ex_later) → Clip.id c0 ≠ Date_now_toString ex_later)
    as Hfresh.
  { assert (clips (app ex_later) = [ex_clipB; ex_clipA]) as -> by (vm_compute; reflexivity).
    assert (Date_now_toString ex_later = "1700000000006") as -> by (vm_compute; reflexivity).
    intros c0 Hin. apply elem_of_cons in Hin as [->|Hin]; [discriminate|].
    apply elem_of_cons in Hin as [->|Hin]; [discriminate|].
    by apply elem_of_nil in Hin. }
  split; [discriminate|]. split; [exact Hfresh|].
  apply (X15_zoom_is_centred_on_the_marker ex_later "Point 3" (1 # 2) (1 # 4) 3);
    [discriminate | exact Hfresh].
Defined.

Lemma X18_witness :
  @JSZip_loadAsync ex_bare_host (File.bytes ex_archive) = Some ex_json_only
  ∧ ex_json_only !! analysis_entry = Some (String.list_byte_of_string "{}")
  ∧ @JSON_parse ex_bare_host (String.string_of_list_byte (String.list_byte_of_string "{}"))
    = Some ex_bare_data
  ∧ (AnalysisData.primaryVideoFileName ex_bare_data = None
     ∨ AnalysisData.primaryVideoFileName ex_bare_data = Some "")
  ∧ let w' := @handleZipUpload ex_bare_host (Some ex_archive) ex_world in
    notes (app w') = AnalysisData.notes ex_bare_data
    ∧ drawings (app w') = AnalysisData.drawings ex_bare_data
    ∧ annotations (app w') = AnalysisData.annotations ex_bare_data
    ∧ clips (app w') = AnalysisData.clips ex_bare_data
    ∧ videoSrc (app w') = videoSrc (app ex_world)
    ∧ videoFile (app w') = videoFile (app ex_world)
    ∧ videoFileName (app w') = videoFileName (app ex_world)
    ∧ player w' = player ex_world
    ∧ host w' = host ex_world.
Proof.
  assert (ex_json_only !! analysis_entry = Some (String.list_byte_of_string "{}")) as Hjson
    by (vm_compute; reflexivity).
  split; [reflexivity|]. split; [exact Hjson|]. split; [reflexivity|]. split; [by left|].
  exact (@X18_import_without_video_name_applies_the_analysis ex_bare_host ex_archive
           ex_json_only (String.list_byte_of_string "{}") ex_bare_data ex_world
           eq_refl Hjson eq_refl (or_introl eq_refl)).
Defined.

Lemma X19_witness :
  "Point 3" ≠ ""
  ∧ let w1 := handleAddAnnotation (Some "Point 3") (1 # 2) (1 # 4) 3 ex_later in
    let w2 := onDeleteAnnotation (Date_now_toString ex_later) w1 in
    annotations (app w2)
    = filter (λ a, Annotation.id a ≠ Date_now_toString ex_later) (annotations (app ex_later))
    ∧ ∃ c : Clip.t,
        clips (app w2) = clips (app ex_later) ++ [c]
        ∧ Clip.id c = Date_now_toString ex_later
        ∧ Clip.name c = "Point 3".
Proof.
  split; [discriminate|].
  apply (X19_deleting_an_annotation_keeps_its_clip ex_later "Point 3" (1 # 2) (1 # 4) 3).
  discriminate.
Defined.

Lemma X20_witness :
  (@JSZip_loadAsync idle_host (File.bytes ex_text_file) = None
   ∨ ∃ (zip : gmap string (list byte)) (jsonFile : list byte),
       @JSZip_loadAsync idle_host (File.bytes ex_text_file) = Some zip
       ∧ zip !! analysis_entry = Some jsonFile
       ∧ @JSON_parse idle_host (String.string_of_list_byte jsonFile) = None)
  ∧ let w' := @handleZipUpload idle_host (Some ex_text_file) ex_world in
    app w' = app ex_world
    ∧ player w' = player ex_world
    ∧ alerts (host w') = alerts (host ex_world) ++ ["Failed to load analysis file."]
    ∧ length (consoleErrors (host w')) = S (length (consoleErrors (host ex_world)))
    ∧ timers (host w') = timers (host ex_world)
    ∧ downloads (host w') = downloads (host ex_world).
Proof.
  split; [by left|].
  exact (@X20_failed_import_changes_nothing_and_alerts_once idle_host ex_text_file
           ex_world (or_introl eq_refl)).
Defined.

Lemma X21_witness :
  @JSZip_loadAsync ex_orphan_host (File.bytes ex_archive) = Some ex_json_only
  ∧ ex_json_only !! analysis_entry = Some (String.list_byte_of_string "{}")
  ∧ @JSON_parse ex_orphan_host (String.string_of_list_byte (String.list_byte_of_string "{}"))
    = Some ex_orphan_data
  ∧ AnalysisData.primaryVideoFileName ex_orphan_data = Some "run.mp4"
  ∧ "run.mp4" ≠ ""
  ∧ ex_json_only !! "run.mp4" = None
  ∧ let w' := @handleZipUpload ex_orphan_host (Some ex_archive) ex_world in
    notes (app w') = AnalysisData.notes ex_orphan_data
    ∧ drawings (app w') = AnalysisData.drawings ex_orphan_data
    ∧ annotations (app w') = AnalysisData.annotations ex_orphan_data
    ∧ clips (app w') = AnalysisData.clips ex_orphan_data
    ∧ videoSrc (app w') = videoSrc (app ex_world)
    ∧ videoFile (app w') = videoFile (app ex_world)
    ∧ videoFileName (app w') = videoFileName (app ex_world)
    ∧ player w' = player ex_world
    ∧ alerts (host w')
      = alerts (host ex_world)
          ++ ["Analysis loaded, but the video file was missing in the archive."]
    ∧ consoleErrors (host w') = consoleErrors (host ex_world).
Proof.
  assert (ex_json_only !! analysis_entry = Some (String.list_byte_of_string "{}")) as Hjson
    by (vm_compute; reflexivity).
  assert (ex_json_only !! "run.mp4" = None) as Hvideo by (vm_compute; reflexivity).
  assert ("run.mp4" ≠ "") as Hne by discriminate.
  split; [reflexivity|]. split; [exact Hjson|]. split; [reflexivity|].
  split; [reflexivity|]. split; [exact Hne|]. split; [exact Hvideo|].
  exact (@X21_import_with_missing_video_applies_the_analysis ex_orphan_host ex_archive
           ex_json_only (String.list_byte_of_string "{}") ex_orphan_data "run.mp4" ex_world
           eq_refl Hjson eq_refl eq_refl Hne Hvideo).
Defined.

Lemma X22_witness :
  videoRef (player ex_world) = Some (ex_video 2)
  ∧ toolMode (app ex_world) = point
  ∧ activeClip (app ex_world) = None
  ∧ "Point 3" ≠ ""
  ∧ let w' := handleStart (Some "Point 3") (mkPointer 320 90) (handleTimeUpdate ex_world) in
    ∃ c : Clip.t,
      clips (app w') = clips (app ex_world) ++ [c]
      ∧ Clip.startTime c = video_currentTime (ex_video 2)
      ∧ Clip.endTime c
        = Qmin (video_currentTime (ex_video 2) + 2) (video_duration (ex_video 2))
      ∧ (Clip.x c, Clip.y c)
        = getNormalizedPos (canvasRef (player ex_world)) (mkPointer 320 90).
Proof.
  assert (videoRef (player ex_world) = Some (ex_video 2)) as Hv by (vm_compute; reflexivity).
  assert (toolMode (app ex_world) = point) as Hmode by (vm_compute; reflexivity).
  assert (activeClip (app ex_world) = None) as Hidle by (vm_compute; reflexivity).
  assert ("Point 3" ≠ "") as Hne by discriminate.
  split; [exact Hv|]. split; [exact Hmode|]. split; [exact Hidle|]. split; [exact Hne|].
  exact (X22_capture_after_time_update_is_clamped_to_the_video ex_world (ex_video 2)
           "Point 3" (mkPointer 320 90) Hv Hmode Hidle Hne).
Defined.


